(** * Balise_Tester: packet codec, balise group assignment, signal
      authorization and restriction handling

    A shallow embedding of the core of the Python program:
    - [balise_tester/core/packet_utils.py]: [PacketUtils.int_to_bin],
      [PacketUtils.bin_to_int], [PacketUtils.get_q_scale_factor],
      [PACKET_DEFS], [encode_packet], [decode_packet];
    - [balise_tester/core/config_manager.py]:
      [ConfigManager.process_balise_groups];
    - [balise_tester/widgets/simulation_widget.py]: [_process_balise_ids],
      [_station_location], [_get_station_exit_balise],
      [_get_effective_balise_packets], [_process_balise_crossing],
      [check_restrictions], [handle_balise_pass].

    Conventions. A Python [str] is a [string], a sequence of one-byte
    characters.  The string primitives of [PyStr] are those of Python on
    ASCII text ([PyStr.is_ascii]); what Python does with other white space
    and digits is not modelled, and a statement that depends on it says so
    in a hypothesis.  A Python [dict] with string keys is a [gmap string _].
    A Python [int] is a [Z].  A finite Python [float] is the rational [Q]
    it denotes; the results of float arithmetic are rounded to the nearest
    binary64 number ([PyFloat]).  A caught exception is an [option] whose
    [None] is the raised error. *)

From Stdlib Require Import ZArith QArith Qminmax Qround Qabs String Ascii List Lia.
From Stdlib Require DecimalString DecimalPos DecimalZ.
From stdpp Require Import base option list gmap strings fin_maps.

Local Open Scope string_scope.
Local Open Scope Z_scope.

(** ** Python string primitives *)

Module PyStr.

(** [s[n:]] for [0 <= n]. *)
Fixpoint drop (n : nat) (s : string) : string :=
  match n, s with
  | O, _ => s
  | S n', String _ s' => drop n' s'
  | S _, EmptyString => EmptyString
  end.

(** [s[:n]] for [0 <= n]. *)
Fixpoint take (n : nat) (s : string) : string :=
  match n, s with
  | S n', String c s' => String c (take n' s')
  | _, _ => EmptyString
  end.

(** [s[lo:hi]] for [0 <= lo <= hi]; like every Python slice it is cut at
    the end of the string instead of failing. *)
Definition slice (lo hi : nat) (s : string) : string :=
  take (hi - lo) (drop lo s).

(** [s[-n:]]; for [n = 0] Python reads [s[0:]], the whole string. *)
Definition suffix (n : nat) (s : string) : string :=
  match n with
  | O => s
  | _ => drop (String.length s - n) s
  end.

(** ["0" * n] *)
Fixpoint zeros (n : nat) : string :=
  match n with
  | O => EmptyString
  | S n' => String "0" (zeros n')
  end.

(** Zero padding on the left up to [width] characters. *)
Definition zfill (width : nat) (s : string) : string :=
  zeros (width - String.length s) ++ s.

(** The binary digits of a positive number, most significant first. *)
Fixpoint bin_pos (p : positive) : string :=
  match p with
  | xH => "1"
  | xO q => bin_pos q ++ "0"
  | xI q => bin_pos q ++ "1"
  end.

(** [format(val, "0{width}b")]: sign-aware zero padding, the sign counts
    in the width. *)
Definition format_0b (val : Z) (width : nat) : string :=
  match val with
  | Z0 => zfill width "0"
  | Zpos p => zfill width (bin_pos p)
  | Zneg p => String "-" (zfill (width - 1) (bin_pos p))
  end.

Definition bit_of_ascii (c : ascii) : option Z :=
  if Ascii.eqb c "0" then Some 0
  else if Ascii.eqb c "1" then Some 1
  else None.

(** [int(s, 2)] on a string of binary digits, read most significant
    digit first; [None] is [ValueError].  Python's [int] also accepts
    blanks around the digits, a sign, a [0b] prefix and single
    underscores; a telegram is a string over 0 and 1, the other spellings
    are taken as malformed here. *)
Fixpoint int_base2_from (acc : Z) (s : string) : option Z :=
  match s with
  | EmptyString => Some acc
  | String c s' =>
      match bit_of_ascii c with
      | Some b => int_base2_from (2 * acc + b) s'
      | None => None
      end
  end.

Definition int_base2 (s : string) : option Z :=
  match s with
  | EmptyString => None
  | _ => int_base2_from 0 s
  end.

(** Every character is 0 or 1. *)
Fixpoint is_bits (s : string) : bool :=
  match s with
  | EmptyString => true
  | String c s' => bool_decide (is_Some (bit_of_ascii c)) && is_bits s'
  end.


(** Python's ASCII white space, as removed by [str.strip]; on ASCII text
    [lstrip], [rstrip] and [strip] are Python's. *)
Definition is_space (c : ascii) : bool :=
  let n := nat_of_ascii c in
  ((9 <=? n)%nat && (n <=? 13)%nat) || ((28 <=? n)%nat && (n <=? 32)%nat).

Fixpoint lstrip (s : string) : string :=
  match s with
  | String c s' => if is_space c then lstrip s' else s
  | EmptyString => EmptyString
  end.

Fixpoint rstrip (s : string) : string :=
  match s with
  | EmptyString => EmptyString
  | String c s' =>
      match rstrip s' with
      | EmptyString => if is_space c then EmptyString else String c EmptyString
      | t => String c t
      end
  end.

Definition strip (s : string) : string := rstrip (lstrip s).

Definition is_digit (c : ascii) : bool :=
  let n := nat_of_ascii c in (48 <=? n)%nat && (n <=? 57)%nat.

Fixpoint all_digits (s : string) : bool :=
  match s with
  | EmptyString => true
  | String c s' => is_digit c && all_digits s'
  end.

(** [s.isdigit()] on ASCII text: at least one character, all of them
    digits. *)
Definition isdigit (s : string) : bool :=
  match s with
  | EmptyString => false
  | _ => all_digits s
  end.

(** [str(n)] for an integer: its decimal digits, after a minus sign when
    it is negative. *)
Definition of_int (z : Z) : string :=
  DecimalString.NilZero.string_of_int (Z.to_int z).

(** The number a non-empty string of decimal digits denotes. *)
Definition of_digits (s : string) : option Z :=
  Z.of_uint <$> DecimalString.NilZero.uint_of_string s.

(** Removes the underscores of a numeric literal; they may only stand
    alone between two digits. *)
Fixpoint drop_underscores (after_digit : bool) (s : string) : option string :=
  match s with
  | EmptyString => Some EmptyString
  | String c s' =>
      if Ascii.eqb c "_" then
        match s' with
        | String d _ =>
            if after_digit && is_digit d then drop_underscores false s'
            else None
        | EmptyString => None
        end
      else String c <$> drop_underscores (is_digit c) s'
  end.

(** [int(s)] for a string: blanks around, an optional sign, decimal
    digits; [None] is [ValueError]. *)
Definition to_int (s : string) : option Z :=
  let digits t := drop_underscores false t ≫= of_digits in
  match strip s with
  | String c t =>
      if Ascii.eqb c "-" then Z.opp <$> digits t
      else if Ascii.eqb c "+" then digits t
      else digits (String c t)
  | EmptyString => None
  end.

(** [needle in s] *)
Fixpoint contains (needle s : string) : bool :=
  String.prefix needle s ||
  match s with
  | EmptyString => false
  | String _ s' => contains needle s'
  end.

End PyStr.

(** ** Python floats *)

(** A Python [float] is an IEEE 754 binary64 number: 53 bits of precision,
    the last place between [2^-1074] and [2^971].  A finite float is the
    rational it denotes; the sum, the product and the quotient of two floats
    are the exact results rounded to the nearest float, ties to the even
    one.  Infinities, NaN, the sign of zero and results of magnitude
    [2^1024] or more are not modelled. *)
Module PyFloat.

Definition pow2 (e : Z) : Q := Qpower 2 e.

(** The integer part of the binary logarithm of [|x|], for [x] not 0. *)
Definition ilog2 (x : Q) : Z :=
  let a := Qabs x in
  if Qle_bool 1 a then Z.log2 (Qfloor a)
  else - Z.log2_up (Qceiling (/ a)).

(** The exponent of the last place of the floats around [x]. *)
Definition ulp_exp (x : Q) : Z := Z.max (-1074) (ilog2 x - 52).

(** The nearest integer, the even one of two that are as near. *)
Definition round_half_even (x : Q) : Z :=
  let f := Qfloor x in
  match (x - inject_Z f ?= 1 # 2)%Q with
  | Lt => f
  | Gt => f + 1
  | Eq => if Z.even f then f else f + 1
  end.

(** The float nearest to [x]. *)
Definition round (x : Q) : Q :=
  if Qeq_bool x 0 then 0%Q
  else
    let e := ulp_exp x in
    Qred (inject_Z (round_half_even (x / pow2 e)) * pow2 e).

(** [x + y], [x * y] and [x / y] for floats, [y] not 0 in the last. *)
Definition add (x y : Q) : Q := round (x + y).
Definition mul (x y : Q) : Q := round (x * y).
Definition div (x y : Q) : Q := round (x / y).

(** [x] is a float. *)
Definition is_float (x : Q) : bool :=
  Qeq_bool (round x) x && negb (Qle_bool (pow2 1024) (Qabs x)).

End PyFloat.

(** ** [packet_utils.py]: field codec *)

Module PacketUtils.

(** [int_to_bin(value, bits)] for an integer [value]:
    [f"{val:0{bits}b}"[-bits:]]. *)
Definition int_to_bin (value : Z) (bits : nat) : string :=
  PyStr.suffix bits (PyStr.format_0b value bits).

(** [bin_to_int(bin_str)]: the empty string gives 0, else [int(bin_str, 2)].
    On a text over 0 and 1 ([PyStr.is_bits]) this is Python's function.
    On other texts the model gives [None], the [ValueError] of [int]; the
    texts with blanks, a sign, a prefix [0b] or underscores, which
    [int(s, 2)] reads as well, are not modelled. *)
Definition bin_to_int (bin_str : string) : option Z :=
  match bin_str with
  | EmptyString => Some 0
  | _ => PyStr.int_base2 bin_str
  end.

(** [get_q_scale_factor(code)] for an integer code, in metres: the
    number the literal of the source is written for; the float it denotes
    is its rounding. *)
Definition get_q_scale_factor (code : Z) : Q :=
  if code =? 0 then (1 # 10)%Q
  else if code =? 1 then 1%Q
  else if code =? 2 then 10%Q
  else 1%Q.

End PacketUtils.

(** ** [packet_utils.py]: the packet definition table *)

(** One entry of a packet definition: the keys ["name"], ["len"], ["val"]
    (a fixed value), ["cond"] (a predicate on the field values, a Python
    lambda) and ["optional"].  The ["desc"] label is used for display only
    and is left out. *)
Record field := Field {
  name : string;
  len : nat;
  val : option Z;
  cond : option (gmap string Z -> bool);
  optional : bool
}.

(** [d.get(k) == v] *)
Definition get_eq (k : string) (v : Z) (d : gmap string Z) : bool :=
  bool_decide (d !! k = Some v).

Definition fld (n : string) (l : nat) : field := Field n l None None false.
Definition fixed (n : string) (l : nat) (v : Z) : field := Field n l (Some v) None false.
Definition when (n : string) (l : nat) (c : gmap string Z -> bool) : field :=
  Field n l None (Some c) false.

Definition ETCS_5 : list field :=
  [ fixed "NID_PACKET" 8 5; fld "Q_DIR" 2; fld "Q_SCALE" 2; fld "D_LINK" 15;
    fld "Q_NEWCOUNTRY" 1; when "NID_C" 10 (get_eq "Q_NEWCOUNTRY" 1);
    fld "NID_BG" 14; fld "Q_LINKORIENTATION" 1; fld "Q_LINKREACTION" 2;
    fld "Q_LOCACC" 6; fld "N_ITER" 5 ].

Definition CTCS_1 : list field :=
  [ fixed "NID_XUSER" 9 1; fld "Q_DIR" 2; fld "Q_SCALE" 2; fld "NID_SIGNAL" 4;
    fld "NID_FREQUENCY" 5; fld "D_SIGNAL" 15; fld "L_SECTION" 15;
    fld "N_ITER" 5 ].

Definition ETCS_21 : list field :=
  [ fixed "NID_PACKET" 8 21; fld "Q_DIR" 2; fld "Q_SCALE" 2;
    fld "D_GRADIENT" 15; fld "Q_GDIR" 1; fld "G_A" 8; fld "N_ITER" 5 ].

Definition ETCS_27 : list field :=
  [ fixed "NID_PACKET" 8 27; fld "Q_DIR" 2; fld "Q_SCALE" 2;
    fld "D_STATIC" 15; fld "V_STATIC" 7; fld "Q_FRONT" 1;
    Field "NC_DIFF" 4 (Some 0) None true;
    Field "V_DIFF" 7 None (Some (fun _ => false)) true;
    fld "N_ITER" 5 ].

Definition ETCS_41 : list field :=
  [ fixed "NID_PACKET" 8 41; fld "Q_DIR" 2; fld "Q_SCALE" 2;
    fld "D_LEVELTR" 15; fld "M_LEVELTR" 3;
    when "NID_STM" 8 (get_eq "M_LEVELTR" 1);
    fld "L_ACKLEVELTR" 15; fld "N_ITER" 5 ].

Definition CTCS_2 : list field :=
  [ fixed "NID_XUSER" 9 2; fld "Q_DIR" 2; fld "Q_SCALE" 2; fld "V_TSR" 7;
    fld "D_TSR" 15; fld "L_TSR" 15; fld "L_TSRarea" 15; fld "N_ITER" 5 ].

Definition CTCS_4 : list field :=
  [ fixed "NID_XUSER" 9 4; fld "Q_DIR" 2; fld "Q_SCALE" 2;
    fld "D_TURNOUT" 15; fld "V_TURNOUT" 7 ].

Definition CTCS_5 : list field :=
  [ fixed "NID_XUSER" 9 5; fld "Q_DIR" 2; fld "Q_STOP" 1 ].

Definition ETCS_68 : list field :=
  [ fixed "NID_PACKET" 8 68; fld "Q_DIR" 2; fld "Q_SCALE" 2;
    fld "Q_TRACKINIT" 1;
    when "D_TRACKINIT" 15 (get_eq "Q_TRACKINIT" 1);
    when "M_TRACKCOND" 4 (get_eq "Q_TRACKINIT" 0);
    when "D_TRACKCOND" 15 (get_eq "Q_TRACKINIT" 0);
    when "L_TRACKCOND" 15 (get_eq "Q_TRACKINIT" 0);
    when "N_ITER" 5 (get_eq "Q_TRACKINIT" 0) ].

Definition ETCS_79 : list field :=
  [ fixed "NID_PACKET" 8 79; fld "Q_DIR" 2; fld "Q_SCALE" 2;
    fld "Q_NEWCOUNTRY" 1; when "NID_C" 10 (get_eq "Q_NEWCOUNTRY" 1);
    fld "M_POSITION" 20; fld "Q_MPOSITION" 1; fld "D_POSOFF" 15;
    fld "N_ITER" 5 ].

(** The entries of [PACKET_DEFS], in the order of the source. *)
Definition PACKET_DEFS_items : list (string * list field) :=
  [ ("ETCS-5", ETCS_5); ("CTCS-1", CTCS_1); ("ETCS-21", ETCS_21);
    ("ETCS-27", ETCS_27); ("ETCS-41", ETCS_41); ("CTCS-2", CTCS_2);
    ("CTCS-4", CTCS_4); ("CTCS-5", CTCS_5); ("ETCS-68", ETCS_68);
    ("ETCS-79", ETCS_79) ].

Definition PACKET_DEFS : gmap string (list field) :=
  list_to_map PACKET_DEFS_items.

(** The keys of [PACKET_TYPE_MAP], in the order of the source. *)
Definition PACKET_TYPE_MAP_keys : list string :=
  [ "ETCS-5"; "CTCS-1"; "ETCS-21"; "ETCS-27"; "ETCS-41"; "ETCS-42";
    "ETCS-44"; "ETCS-46"; "ETCS-68"; "ETCS-72"; "ETCS-79"; "ETCS-131";
    "ETCS-132"; "ETCS-137"; "ETCS-254"; "CTCS-2"; "CTCS-4"; "CTCS-5" ].

(** ** [packet_utils.py]: [encode_packet] and [decode_packet] *)

(** [if "cond" in field: if not field["cond"](d): continue] does not skip. *)
Definition present (f : field) (d : gmap string Z) : bool :=
  match cond f with
  | Some c => c d
  | None => true
  end.

(** The value [encode_packet] writes for a field: its fixed value, else
    [processed_data.get(name, 0)]. *)
Definition written (processed_data : gmap string Z) (f : field) : Z :=
  match val f with
  | Some v => v
  | None => default 0 (processed_data !! name f)
  end.

(** One turn of the loop of [encode_packet]: [bin_str] after the field. *)
Definition encode_step (processed_data : gmap string Z)
    (bin_str : string) (f : field) : string :=
  if present f processed_data then
    bin_str ++ PacketUtils.int_to_bin (written processed_data f) (len f)
  else bin_str.

Definition encode_packet (packet_name : string) (data : gmap string Z) : string :=
  match PACKET_DEFS !! packet_name with
  | None | Some [] => ""
  | Some defs => fold_left (encode_step data) defs ""
  end.

(** What [decode_packet] returns: the decoded fields, or [{"raw": bin_str}]
    for an unknown packet name. *)
Inductive decoded :=
  | Fields (result : gmap string Z)
  | Raw (bin_str : string).

(** The loop of [decode_packet] from a field on, with the state [result] and
    [ptr]: [continue] goes on with the next field and the same state,
    [break] returns [result]. *)
Fixpoint decode_fields (defs : list field) (bin_str : string)
    (result : gmap string Z) (ptr : nat) : option (gmap string Z) :=
  match defs with
  | [] => Some result
  | f :: rest =>
      if negb (present f result) then decode_fields rest bin_str result ptr
      else if (String.length bin_str <? ptr + len f)%nat then Some result
      else
        match PacketUtils.bin_to_int (PyStr.slice ptr (ptr + len f) bin_str) with
        | Some v => decode_fields rest bin_str (<[name f := v]> result) (ptr + len f)
        | None => None
        end
  end.

Definition decode_packet (packet_name : string) (bin_str : string)
    : option decoded :=
  match PACKET_DEFS !! packet_name with
  | None | Some [] => Some (Raw bin_str)
  | Some defs => Fields <$> decode_fields defs bin_str ∅ 0
  end.

(** ** Reading a bit string as a number *)

(** The number a string over 0 and 1 denotes when its first character is the
    most significant bit: character [i] of [s] weighs [2^(|s| - 1 - i)]. *)
Fixpoint msb_first_value (s : string) : Z :=
  match s with
  | EmptyString => 0
  | String c s' =>
      (if Ascii.eqb c "1" then 2 ^ Z.of_nat (String.length s') else 0)
      + msb_first_value s'
  end.

(** ** The encoder as a recursion over the fields *)

(** The text [encode_packet] adds for the fields [defs]: its loop, written
    as a recursion ([encode_packet_fields] below relates the two). *)
Fixpoint encode_fields (data : gmap string Z) (defs : list field) : string :=
  match defs with
  | [] => ""
  | f :: rest => encode_step data "" f ++ encode_fields data rest
  end.

(** The values of [data] are non-negative and fit the bit widths the
    definition [defs] declares for their fields. *)
Definition fits_widths (defs : list field) (data : gmap string Z) : bool :=
  forallb (fun f => match data !! name f with
                    | Some v => (0 <=? v) && (v <? 2 ^ Z.of_nat (len f))
                    | None => true
                    end) defs.

(** ** Balise records *)

(** The values a balise record holds under its string keys: text (every
    cell read from the CSV file) or an integer. *)
Inductive pyval :=
  | VStr (s : string)
  | VInt (z : Z).

(** [str(v)] *)
Definition py_str (v : pyval) : string :=
  match v with
  | VStr s => s
  | VInt z => PyStr.of_int z
  end.

(** [int(v)]; [None] is [ValueError]. *)
Definition py_int (v : pyval) : option Z :=
  match v with
  | VStr s => PyStr.to_int s
  | VInt z => Some z
  end.

(** A balise record, a Python [dict].  The keys ["name"] (text) and
    ["location"] (a float after loading) are kept apart with their types;
    all other keys (["father_balise"], ["sub_id"], the header fields, the
    packet telegrams) are in [b_items]. *)
Record balise := Balise {
  b_name : option string;
  b_location : option Q;
  b_items : gmap string pyval
}.

(** [b[k] = v] for a key of [b_items]. *)
Definition set_item (k : string) (v : pyval) (b : balise) : balise :=
  Balise (b_name b) (b_location b) (<[k := v]> (b_items b)).

(** [str(b.get(k, "")).strip()] *)
Definition get_stripped (b : balise) (k : string) : string :=
  PyStr.strip (match b_items b !! k with
               | Some v => py_str v
               | None => ""
               end).

(** ** Group assignment: [process_balise_groups] and [_process_balise_ids]

    The roster is a list of records, each position an object of its own.
    The dictionary [groups] keeps its keys in insertion order; a group
    refers to its members by their index in the roster, so that an update
    of a member is an update of the roster. *)

Module GroupAssigner.

(** [if father_id not in groups: groups[father_id] = []] and then
    [groups[father_id].append(balise)]. *)
Fixpoint groups_append (groups : list (string * list nat))
    (father_id : string) (i : nat) : list (string * list nat) :=
  match groups with
  | [] => [(father_id, [i])]
  | (k, group) :: rest =>
      if decide (k = father_id) then (k, (group ++ [i])%list) :: rest
      else (k, group) :: groups_append rest father_id i
  end.

(** One turn of the first loop, for the record at index [i]; [single] is
    the update of a record without father. *)
Definition group_step (single : balise -> balise)
    (st : list balise * list (string * list nat)) (i : nat)
    : list balise * list (string * list nat) :=
  match st.1 !! i with
  | None => st
  | Some b =>
      let father_id := get_stripped b "father_balise" in
      if negb (String.eqb father_id "") then
        (st.1, groups_append st.2 father_id i)
      else (<[i := single b]> st.1, st.2)
  end.

Definition group_balises (single : balise -> balise) (balises : list balise)
    : list balise * list (string * list nat) :=
  fold_left (group_step single) (seq 0 (length balises)) (balises, []).

(** Step 1: the sub_ids in use.  [int] of a string of ASCII digits does
    not fail, so that on ASCII text the branch [None] of [to_int] is not
    taken; the [ValueError] Python raises there on other digits is not
    modelled. *)
Definition used_step (balises : list balise) (used_ids : gset Z) (i : nat)
    : gset Z :=
  match balises !! i with
  | None => used_ids
  | Some b =>
      let sid := get_stripped b "sub_id" in
      if PyStr.isdigit sid then
        match PyStr.to_int sid with
        | Some n => used_ids ∪ {[ n ]}
        | None => used_ids
        end
      else used_ids
  end.

(** [while next_id in used_ids: next_id += 1].  The set is finite: the
    loop leaves after at most [size used_ids] turns, [fuel] counts them. *)
Fixpoint first_free (fuel : nat) (used_ids : gset Z) (next_id : Z) : Z :=
  match fuel with
  | O => next_id
  | S fuel' =>
      if decide (next_id ∈ used_ids) then first_free fuel' used_ids (next_id + 1)
      else next_id
  end.

(** Step 2, one member: a missing or non-numeric sub_id is replaced by
    the smallest free one from [next_id] on. *)
Definition fill_step (st : list balise * gset Z * Z) (i : nat)
    : list balise * gset Z * Z :=
  let '(balises, used_ids, next_id) := st in
  match balises !! i with
  | None => st
  | Some b =>
      let sid := get_stripped b "sub_id" in
      if String.eqb sid "" || negb (PyStr.isdigit sid) then
        let next_id' := first_free (S (size used_ids)) used_ids next_id in
        (<[i := set_item "sub_id" (VStr (PyStr.of_int next_id')) b]> balises,
         used_ids ∪ {[ next_id' ]}, next_id')
      else st
  end.

(** Step 3, one member; [finish count] is the update of the member,
    where the two functions differ. *)
Definition finish_step (finish : nat -> balise -> balise) (count : nat)
    (balises : list balise) (i : nat) : list balise :=
  match balises !! i with
  | None => balises
  | Some b => <[i := finish count b]> balises
  end.

(** The body of the second loop, for one group. *)
Definition process_group (finish : nat -> balise -> balise)
    (balises : list balise) (group : list nat) : list balise :=
  let count := length group in
  let used_ids := fold_left (used_step balises) group ∅ in
  let filled := fold_left fill_step group (balises, used_ids, 0) in
  fold_left (finish_step finish count) group filled.1.1.

(** The two loops.  [process_balise_groups] and [_process_balise_ids] are
    this function; they differ in the fields they write ([single],
    [finish]). *)
Definition assign_groups (single : balise -> balise)
    (finish : nat -> balise -> balise) (balises : list balise) : list balise :=
  let st := group_balises single balises in
  fold_left (fun bs g => process_group finish bs g.2) st.2 st.1.

(** [q_link]: ["1"] if [count >= 2] else ["0"]. *)
Definition q_link_of (count : nat) : pyval :=
  if (2 <=? count)%nat then VStr "1" else VStr "0".

End GroupAssigner.

Module ConfigManager.
Import GroupAssigner.

(** The record without father. *)
Definition single (b : balise) : balise :=
  set_item "q_link" (VStr "0") (set_item "n_total" (VStr "1")
    (set_item "n_pig" (VStr "000") (set_item "sub_id" (VStr "0") b))).

(** [n_pig]: [f"{s_id:03b}"] for [s_id = int(b.get("sub_id", 0))], and
    ["000"] when [int] raises [ValueError]. *)
Definition n_pig_of (b : balise) : pyval :=
  match py_int (default (VInt 0) (b_items b !! "sub_id")) with
  | Some s_id => VStr (PyStr.format_0b s_id 3)
  | None => VStr "000"
  end.

Definition finish (count : nat) (b : balise) : balise :=
  let b1 := set_item "n_total" (VStr (PyStr.of_int (Z.of_nat count))) b in
  let b2 := set_item "n_pig" (n_pig_of b1) b1 in
  set_item "q_link" (q_link_of count) b2.

Definition process_balise_groups (balises : list balise) : list balise :=
  assign_groups single finish balises.

End ConfigManager.

(** ** [simulation_widget.py] *)

Module SimulationWidget.
Import GroupAssigner.

(** *** [_process_balise_ids] *)

(** The record without father: no ["n_pig"] here. *)
Definition single (b : balise) : balise :=
  set_item "q_link" (VStr "0") (set_item "n_total" (VStr "1")
    (set_item "sub_id" (VStr "0") b)).

Definition finish (count : nat) (b : balise) : balise :=
  set_item "q_link" (q_link_of count)
    (set_item "n_total" (VStr (PyStr.of_int (Z.of_nat count))) b).

Definition process_balise_ids (balises : list balise) : list balise :=
  assign_groups single finish balises.

(** *** The state of the widget *)

(** A [datetime], in microseconds. *)
Definition time := Z.

Record station := Station {
  st_name : option string;
  st_location : option Q
}.

(** An entry of ["active_restrictions"]. *)
Record restriction := Restriction {
  r_type : string;
  start_km : Q;
  end_km : option Q;
  speed : Q
}.

(** A train, a Python [dict]; a key that may be missing or [None] is an
    [option]. *)
Record train := Train {
  t_name : option string;
  schedule_managed : bool;
  start_station : option string;
  end_station : option string;
  start_loc : option Q;
  end_loc : option Q;
  dep_start : option time;
  dep_time : option time;
  leave_end : option time;
  leave_time : option time;
  current_location : option Q;
  base_speed : option Q;
  current_speed_limit : option Q;
  active_restrictions : option (list restriction)
}.

Record widget := Widget {
  balises : list balise;
  stations : list station;
  trains : list train;
  max_speed : option Q;            (* [line_config.get("max_speed")] *)
  balise_pass_times : gmap nat time;
  current_sim_time : option time
}.

Definition Qlt_bool (x y : Q) : bool := negb (Qle_bool y x).

(** The truth value of a string or [None]. *)
Definition truthy (s : option string) : bool :=
  match s with
  | Some s => negb (String.eqb s "")
  | None => false
  end.

(** [x or y] for two optional times. *)
Definition or_else (x y : option time) : option time :=
  match x with
  | Some _ => x
  | None => y
  end.

(** [_station_location(name)] *)
Fixpoint station_location (sts : list station) (n : option string) : option Q :=
  match sts with
  | [] => None
  | s :: rest =>
      if decide (st_name s = n) then Some (default 0%Q (st_location s))
      else station_location rest n
  end.

(** *** [_get_effective_balise_packets] *)

(** The local [get_loc] *)
Definition get_loc (sts : list station) (v : option Q) (n : option string)
    : option Q :=
  match v with
  | Some x => Some x
  | None => station_location sts n
  end.

(** [s and s in b_name and "CZ" in b_name] *)
Definition station_balise (s : option string) (b_name : string) : bool :=
  truthy s && PyStr.contains (default "" s) b_name && PyStr.contains "CZ" b_name.

(** The first part of the body of the loop over the trains: the values
    of [relevant], [target_leave_time] and [should_stop] for the train. *)
Definition relevance (w : widget) (b : balise) (t : train)
    : bool * option time * bool :=
  let is_scheduled := schedule_managed t in
  let s_station := start_station t in
  let e_station := end_station t in
  let t_start := get_loc (stations w) (start_loc t) s_station in
  let t_end := get_loc (stations w) (end_loc t) e_station in
  let b_name := default "" (b_name b) in
  let b_loc := default 0%Q (b_location b) in
  if station_balise s_station b_name then
    (true,
     if is_scheduled then or_else (dep_start t) (dep_time t) else None,
     false)
  else if station_balise e_station b_name then
    (true,
     if is_scheduled then or_else (leave_end t) (leave_time t) else None,
     negb is_scheduled)
  else
    match t_start, t_end with
    | Some ts, Some te =>
        if Qlt_bool (Qmin ts te) b_loc && Qlt_bool b_loc (Qmax ts te) then
          (true,
           if is_scheduled then or_else (dep_start t) (dep_time t) else None,
           false)
        else (false, None, false)
    | _, _ => (false, None, false)
    end.

(** The body of the loop over the trains for one train: the value
    [is_green] has at the end of the turn. *)
Definition train_authorizes (w : widget) (balise_index : nat) (b : balise)
    (current_dt : time) (t : train) : bool :=
  let is_scheduled := schedule_managed t in
  let '(relevant, target_leave_time, should_stop) := relevance w b t in
  if relevant then
    if should_stop then false
    else
      let last_pass := balise_pass_times w !! balise_index in
      match is_scheduled, target_leave_time with
      | true, Some target =>
          if target <=? current_dt then
            match last_pass with
            | None => true
            | Some lp =>
                if lp <? target then true
                else current_dt - lp <? 3000000
            end
          else false
      | true, None => false
      | false, _ =>
          match last_pass with
          | None => true
          | Some lp => current_dt - lp <? 3000000
          end
      end
  else false.

(** The loop over the trains: the first train that authorizes ends it. *)
Fixpoint scan_trains (w : widget) (balise_index : nat) (b : balise)
    (current_dt : time) (ts : list train) : bool :=
  match ts with
  | [] => false
  | t :: rest =>
      if train_authorizes w balise_index b current_dt t then true
      else scan_trains w balise_index b current_dt rest
  end.

(** [str(v).strip()] is empty. *)
Definition blank (v : pyval) : bool := String.eqb (PyStr.strip (py_str v)) "".

(** The content of a green balise: no ["CTCS-5"], no blank value. *)
Definition green_content (b : balise) : balise :=
  Balise
    (match b_name b with
     | Some n => if String.eqb (PyStr.strip n) "" then None else Some n
     | None => None
     end)
    (b_location b)
    (filter (fun kv => kv.1 <> "CTCS-5" /\ blank kv.2 = false) (b_items b)).

(** The content of a red balise: the keys of [PACKET_TYPE_MAP] other than
    ["CTCS-5"] are deleted. *)
Definition red_content (b : balise) : balise :=
  Balise (b_name b) (b_location b)
    (fold_left (fun m k => if String.eqb k "CTCS-5" then m else delete k m)
       PACKET_TYPE_MAP_keys (b_items b)).

(** [_get_effective_balise_packets(balise_index, current_time)]; [now] is
    what [datetime.now()] reads, [None] is the [IndexError] of
    [self.balises[balise_index]]. *)
Definition get_effective_balise_packets (w : widget) (now : time)
    (balise_index : nat) (current_time : option time) : option balise :=
  match balises w !! balise_index with
  | None => None
  | Some b =>
      match b_items b !! "CTCS-5" with
      | None => Some b
      | Some v =>
          if blank v then Some b
          else
            let current_dt := default now current_time in
            if scan_trains w balise_index b current_dt (trains w)
            then Some (green_content b)
            else Some (red_content b)
      end
  end.

(** *** [check_restrictions] *)

Definition expired (loc : Q) (r : restriction) : bool :=
  match end_km r with
  | Some e => Qlt_bool e loc
  | None => false
  end.

Definition limit_step (loc : Q) (limit : Q) (r : restriction) : Q :=
  if Qle_bool (start_km r) loc then
    if Qlt_bool (speed r) limit then speed r else limit
  else limit.

Definition check_restrictions (w : widget) (t : train) : train :=
  let loc := default 0%Q (current_location t) in
  let restrs := default [] (active_restrictions t) in
  let valid_restrs := List.filter (fun r => negb (expired loc r)) restrs in
  let default_max := default 350%Q (max_speed w) in
  let base := default default_max (base_speed t) in
  let limit := fold_left (limit_step loc) valid_restrs base in
  Train (t_name t) (schedule_managed t) (start_station t) (end_station t)
    (start_loc t) (end_loc t) (dep_start t) (dep_time t) (leave_end t)
    (leave_time t) (current_location t) (base_speed t) (Some limit)
    (Some valid_restrs).

(** *** [handle_balise_pass] *)

Definition set_base_speed (v : Q) (t : train) : train :=
  Train (t_name t) (schedule_managed t) (start_station t) (end_station t)
    (start_loc t) (end_loc t) (dep_start t) (dep_time t) (leave_end t)
    (leave_time t) (current_location t) (Some v) (current_speed_limit t)
    (active_restrictions t).

Definition set_restrictions (rs : list restriction) (t : train) : train :=
  Train (t_name t) (schedule_managed t) (start_station t) (end_station t)
    (start_loc t) (end_loc t) (dep_start t) (dep_time t) (leave_end t)
    (leave_time t) (current_location t) (base_speed t) (current_speed_limit t)
    (Some rs).

(** The absolute stop: both speeds 0, no restriction left. *)
Definition absolute_stop (t : train) : train :=
  Train (t_name t) (schedule_managed t) (start_station t) (end_station t)
    (start_loc t) (end_loc t) (dep_start t) (dep_time t) (leave_end t)
    (leave_time t) (current_location t) (Some 0%Q) (Some 0%Q) (Some []).

(** The mapping [decode_packet] returned, as [data.get] reads it: the
    field names are no keys of [{"raw": ...}]. *)
Definition fields_of (d : decoded) : gmap string Z :=
  match d with
  | Fields r => r
  | Raw _ => ∅
  end.

(** [val and isinstance(val, str) and len(val) > 8] *)
Definition telegram (v : option pyval) : option string :=
  match v with
  | Some (VStr s) => if (8 <? String.length s)%nat then Some s else None
  | _ => None
  end.

(** The CTCS-2 block; the second component tells whether ["CTCS-2"] was
    logged.  A failing [decode_packet] and the [KeyError] of a train
    without ["active_restrictions"] are caught: the block has no effect
    then.  [start_km] and [end_km] are computed in floats: every product,
    quotient and sum is rounded.  The decoded integers are below [2^15]
    and are floats as they are. *)
Definition apply_ctcs2 (b_loc : Q) (effective_balise : balise) (t : train)
    : train * bool :=
  match telegram (b_items effective_balise !! "CTCS-2") with
  | None => (t, false)
  | Some s =>
      match decode_packet "CTCS-2" s with
      | None => (t, false)
      | Some dec =>
          let data := fields_of dec in
          let q_scale := default 1 (data !! "Q_SCALE") in
          let scale := PyFloat.round (PacketUtils.get_q_scale_factor q_scale) in
          let v_tsr := default 0 (data !! "V_TSR") * 5 in
          let d_tsr := default 0 (data !! "D_TSR") in
          let l_tsr := default 0 (data !! "L_TSR") in
          let start :=
            PyFloat.add b_loc
              (PyFloat.div (PyFloat.mul (inject_Z d_tsr) scale) 1000) in
          let end_ :=
            PyFloat.add start
              (PyFloat.div (PyFloat.mul (inject_Z l_tsr) scale) 1000) in
          let restr := Restriction "CTCS-2" start (Some end_) (inject_Z v_tsr) in
          match active_restrictions t with
          | Some rs => (set_restrictions (rs ++ [restr])%list t, true)
          | None => (t, true)
          end
      end
  end.

(** The ETCS-27 block.  Both branches on [d_static] set the base speed:
    the source writes the same assignment twice.  The source also computes
    a [start_km] from [Q_SCALE] and [D_STATIC] and never reads it. *)
Definition apply_etcs27 (w : widget) (effective_balise : balise) (t : train)
    : train * bool :=
  match telegram (b_items effective_balise !! "ETCS-27") with
  | None => (t, false)
  | Some s =>
      match decode_packet "ETCS-27" s with
      | None => (t, false)
      | Some dec =>
          let data := fields_of dec in
          let v_static_code := default 127 (data !! "V_STATIC") in
          let d_static := default 0 (data !! "D_STATIC") in
          if v_static_code =? 127 then
            (set_base_speed (default 350%Q (max_speed w)) t, true)
          else
            let speed_val := inject_Z (v_static_code * 5) in
            if d_static =? 0 then (set_base_speed speed_val t, true)
            else (set_base_speed speed_val t, true)
      end
  end.

(** [effective_balise]: the balise as given, or what
    [_get_effective_balise_packets] returns when [index >= 0]. *)
Definition effective_balise_of (w : widget) (now : time) (b : balise)
    (index : Z) : option balise :=
  if 0 <=? index
  then get_effective_balise_packets w now (Z.to_nat index) (current_sim_time w)
  else Some b.

Section handle_balise_pass.

(** Python's [float(v)], [None] for [ValueError]: the old manual
    ["speed_limit"] entry is the only text read as a float. *)
Variable py_float : pyval -> option Q.

Definition apply_speed_limit (effective_balise : balise) (t : train) : train :=
  match b_items effective_balise !! "speed_limit" with
  | Some v =>
      if blank v then t
      else match py_float v with
           | Some limit => set_base_speed limit t
           | None => t
           end
  | None => t
  end.

(** [handle_balise_pass(train, balise, index)]: the train after the
    pass; [None] is the [IndexError] of an index past the roster. *)
Definition handle_balise_pass (w : widget) (now : time) (t : train)
    (b : balise) (index : Z) : option train :=
  let b_loc := default 0%Q (b_location b) in
  effective_balise ← effective_balise_of w now b index;
  let '(t1, log5) :=
    match b_items effective_balise !! "CTCS-5" with
    | Some _ => (absolute_stop t, true)
    | None => (t, false)
    end in
  let '(t2, log2) := apply_ctcs2 b_loc effective_balise t1 in
  let '(t3, log27) := apply_etcs27 w effective_balise t2 in
  Some (if log5 || log2 || log27 then t3
        else apply_speed_limit effective_balise t3).

End handle_balise_pass.

End SimulationWidget.

(** ** Groups and their sub_ids, as the specification speaks of them *)

(** [str(b.get("father_balise", "")).strip()], the key of the group. *)
Definition father_of (b : balise) : string := get_stripped b "father_balise".



(** The sub_id of a record when it is numeric for the assignment: the
    stripped text is a string of digits, read as an integer. *)
Definition sub_id_number (b : balise) : option Z :=
  let sid := get_stripped b "sub_id" in
  if PyStr.isdigit sid then PyStr.to_int sid else None.

(** The positions of the records of [roster] whose father is [F]. *)
Definition member_indices (roster : list balise) (F : string) : list nat :=
  filter (fun i => father_of <$> roster !! i = Some F) (seq 0 (length roster)).




(** The roster of the example of the specification. *)
Definition roster_ABC : list balise :=
  [ Balise (Some "A") None {[ "father_balise" := VStr "" ]};
    Balise (Some "B") None {[ "father_balise" := VStr "A" ]};
    Balise (Some "C") None {[ "father_balise" := VStr "A"; "sub_id" := VStr "0" ]} ].



(** One record of a group, with the sub_id 8. *)
Definition roster_id_8 : list balise :=
  [ Balise (Some "B") None {[ "father_balise" := VStr "G"; "sub_id" := VStr "8" ]} ].

(** ** Fixtures for the widget *)

Module Fixtures.
Import SimulationWidget.

(** A balise at km 5 with an absolute stop and a speed profile. *)
Definition stop_balise : balise :=
  Balise (Some "XCZ1") (Some 5%Q)
    {[ "CTCS-5" := VStr "000000101011"; "q_link" := VStr "0";
       "ETCS-27" := VStr (encode_packet "ETCS-27" {[ "V_STATIC" := 40 ]}) ]}.

(** A balise at km 5 with a temporary speed restriction of 100 m at
    100 km/h and a speed profile of 200 km/h. *)
Definition tsr_balise : balise :=
  Balise (Some "B7") (Some 5%Q)
    {[ "CTCS-2" := VStr (encode_packet "CTCS-2"
          {[ "Q_SCALE" := 1; "D_TSR" := 0; "L_TSR" := 100; "V_TSR" := 20 ]});
       "ETCS-27" := VStr (encode_packet "ETCS-27" {[ "V_STATIC" := 40 ]}) ]}.

(** A manual train between km 20 and km 30. *)
Definition far_train : train :=
  Train (Some "T1") false None None (Some 20%Q) (Some 30%Q) None None None
    None (Some 20%Q) (Some 200%Q) (Some 200%Q) (Some []).

Definition stop_widget : widget :=
  Widget [stop_balise] [] [far_train] (Some 300%Q) ∅ None.

Definition tsr_widget : widget :=
  Widget [tsr_balise] [] [far_train] (Some 300%Q) ∅ None.




(** No text is read as a float in the examples. *)
Definition no_float (v : pyval) : option Q := None.

End Fixtures.

(** ** More of the codec *)

(** The number of bits [encode_packet] writes for the fields [defs] under
    the input [data]: the widths of the fields that are present. *)
Definition encoded_width (data : gmap string Z) (defs : list field) : nat :=
  sum_list (len <$> List.filter (fun f => present f data) defs).

(** ** More of the group assignment *)

(** The keys written by the group assignment. *)
Definition assigned_keys : list string := ["sub_id"; "n_pig"; "n_total"; "q_link"].

(** Two records that differ at most in the keys [ks]. *)
Definition same_outside (ks : list string) (b1 b2 : balise) : Prop :=
  b_name b1 = b_name b2 /\ b_location b1 = b_location b2
  /\ forall k, k ∉ ks -> b_items b1 !! k = b_items b2 !! k.

(** ** The reads of the decoder *)

(** Where the field at the position [j] of [defs] starts in a telegram
    whose fields have the values [data]: after the fields present above
    it. *)
Definition field_start (data : gmap string Z) (defs : list field) (j : nat) : nat :=
  encoded_width data (take j defs).

(** The number the bits of that field denote in [bin_str]. *)
Definition field_value (bin_str : string) (data : gmap string Z)
    (defs : list field) (j : nat) (f : field) : Z :=
  msb_first_value
    (PyStr.slice (field_start data defs j) (field_start data defs j + len f)
       bin_str).

(** Every condition of [defs] reads fields above it only: it has the same
    value on two mappings that agree on the names [seen] and on the names
    of the fields above. *)
Fixpoint conds_look_back (seen : list string) (defs : list field) : Prop :=
  match defs with
  | [] => True
  | f :: rest =>
      (forall R R' : gmap string Z,
          (forall n, n ∈ seen -> R !! n = R' !! n) -> present f R = present f R')
      /\ conds_look_back (name f :: seen) rest
  end.

(** What holds of the mapping [R] when the loop of [decode_packet] has
    dealt with the first [k] fields of [defs] on [bin_str]: the reads were
    within the string, [R] holds the present fields above [k] with the
    numbers their bits denote, and no other field. *)
Definition read_to (defs : list field) (bin_str : string) (k : nat)
    (R : gmap string Z) : Prop :=
  (field_start R defs k <= String.length bin_str)%nat
  /\ (forall j f, defs !! j = Some f ->
        R !! name f
        = if (j <? k)%nat && present f R
          then Some (field_value bin_str R defs j f) else None)
  /\ (forall n, is_Some (R !! n) -> n ∈ name <$> defs).

(** ** More of the simulation *)

Module Scenario.
Import SimulationWidget.

(** A manual train between km 0 and km 10. *)
Definition near_train : train :=
  Train (Some "T2") false None None (Some 0%Q) (Some 10%Q) None None None
    None (Some 0%Q) (Some 200%Q) (Some 200%Q) (Some []).

(** A scheduled train that leaves the station X at the time 100. *)
Definition timed_train : train :=
  Train (Some "S1") true (Some "X") (Some "Y") None None (Some 100) None None
    None None None None None.



(** An active exit balise of the station X, behind a balise that is not
    one. *)
Definition exit_balise : balise :=
  Balise (Some "XCZ2") (Some 6%Q)
    {[ "type" := VStr "1"; "CTCS-5" := VStr "000000101011" ]}.

Definition station_widget : widget :=
  Widget [Fixtures.stop_balise; exit_balise] [] [timed_train] (Some 300%Q) ∅ None.

(** One manual train on its way over the balise, at the time 50. *)
Definition run_widget : widget :=
  Widget [Fixtures.stop_balise] [] [near_train] (Some 300%Q) ∅ (Some 50).

End Scenario.

(** Two states of a train that differ at most in the base speed, the
    current speed limit and the active restrictions. *)
Definition same_journey (t t' : SimulationWidget.train) : Prop :=
  SimulationWidget.t_name t' = SimulationWidget.t_name t
  /\ SimulationWidget.schedule_managed t' = SimulationWidget.schedule_managed t
  /\ SimulationWidget.start_station t' = SimulationWidget.start_station t
  /\ SimulationWidget.end_station t' = SimulationWidget.end_station t
  /\ SimulationWidget.start_loc t' = SimulationWidget.start_loc t
  /\ SimulationWidget.end_loc t' = SimulationWidget.end_loc t
  /\ SimulationWidget.dep_start t' = SimulationWidget.dep_start t
  /\ SimulationWidget.dep_time t' = SimulationWidget.dep_time t
  /\ SimulationWidget.leave_end t' = SimulationWidget.leave_end t
  /\ SimulationWidget.leave_time t' = SimulationWidget.leave_time t
  /\ SimulationWidget.current_location t' = SimulationWidget.current_location t.

(** ** [simulation_widget.py]: exit balises and crossings *)

Module Traffic.
Import SimulationWidget.

(** *** [_get_station_exit_balise] *)

(** The criteria of the loop:
    [b_type == "1" and station_name in name and "CZ" in name]. *)
Definition exit_criteria (station_name : string) (b : balise) : bool :=
  let name := default "" (b_name b) in
  let b_type := py_str (default (VStr "0") (b_items b !! "type")) in
  String.eqb b_type "1" && PyStr.contains station_name name
  && PyStr.contains "CZ" name.

(** The loop over [enumerate(self.balises)], from the position [i] on. *)
Fixpoint find_exit (station_name : string) (i : nat) (bs : list balise)
    : option (nat * balise) :=
  match bs with
  | [] => None
  | b :: rest =>
      if exit_criteria station_name b then Some (i, b)
      else find_exit station_name (S i) rest
  end.

(** [_get_station_exit_balise(station_name)]; [None] is the pair
    [(None, None)]. *)
Definition get_station_exit_balise (w : widget) (station_name : option string)
    : option (nat * balise) :=
  if truthy station_name
  then find_exit (default "" station_name) 0 (balises w)
  else None.

(** *** [_process_balise_crossing] *)

(** [self.balise_pass_times[i] = tm] *)
Definition set_pass_time (i : nat) (tm : time) (w : widget) : widget :=
  Widget (balises w) (stations w) (trains w) (max_speed w)
    (<[i := tm]> (balise_pass_times w)) (current_sim_time w).

(** The train is an element of [self.trains], at the position [k]: what
    [handle_balise_pass] writes to it is written to the roster. *)
Definition set_train (k : nat) (t : train) (w : widget) : widget :=
  Widget (balises w) (stations w) (<[k := t]> (trains w)) (max_speed w)
    (balise_pass_times w) (current_sim_time w).

Section process_balise_crossing.

Variable py_float : pyval -> option Q.

(** What [datetime.now()] reads while the balise [i] is treated: when
    the pass is recorded, and within the authorization. *)
Variable now_pass now_auth : nat -> time.

(** One turn of the loop, for the train at the position [k] of the
    roster; [in_jump] is [train.get("jump_h", 0) > 0], which the loop
    does not change.  [None] is an exception: a position past the
    roster of trains or of balises. *)
Definition crossing_step (k : nat) (in_jump : bool) (start end_ : Q)
    (st : option widget) (ib : nat * balise) : option widget :=
  w ← st;
  let b_loc := default 0%Q (b_location ib.2) in
  if Qle_bool start b_loc && Qle_bool b_loc end_ then
    if in_jump then Some w
    else
      let w1 :=
        set_pass_time ib.1 (default (now_pass ib.1) (current_sim_time w)) w in
      t ← trains w1 !! k;
      t' ← handle_balise_pass py_float w1 (now_auth ib.1) t ib.2
             (Z.of_nat ib.1);
      Some (set_train k t' w1)
  else Some w.

(** [_process_balise_crossing(train, old_pos, new_pos)] for the train
    at the position [k]. *)
Definition process_balise_crossing (w : widget) (k : nat) (in_jump : bool)
    (old_pos new_pos : Q) : option widget :=
  fold_left
    (crossing_step k in_jump (Qmin old_pos new_pos) (Qmax old_pos new_pos))
    (zip (seq 0 (length (balises w))) (balises w)) (Some w).

End process_balise_crossing.

(** The balise at the position [i] lies between the two positions, ends
    included. *)
Definition crossed (w : widget) (old_pos new_pos : Q) (i : nat) : bool :=
  match balises w !! i with
  | Some b =>
      Qle_bool (Qmin old_pos new_pos) (default 0%Q (b_location b))
      && Qle_bool (default 0%Q (b_location b)) (Qmax old_pos new_pos)
  | None => false
  end.

End Traffic.

(** * Properties *)

(** ** Strings *)

Section string_facts.

Lemma app_cons (c : ascii) (s t : string) : String c s ++ t = String c (s ++ t).
Proof. reflexivity. Qed.

Lemma app_nil_l (t : string) : "" ++ t = t.
Proof. reflexivity. Qed.

Lemma length_app (s t : string) :
  String.length (s ++ t) = (String.length s + String.length t)%nat.
Proof.
  induction s as [|c s IH]; rewrite ?app_cons, ?app_nil_l; simpl;
    [done | by rewrite IH].
Qed.

Lemma app_assoc_str (s t u : string) : (s ++ t) ++ u = s ++ (t ++ u).
Proof.
  induction s as [|c s IH]; rewrite ?app_cons, ?app_nil_l;
    [done | by rewrite IH].
Qed.

Lemma app_empty_r (s : string) : s ++ "" = s.
Proof.
  induction s as [|c s IH]; rewrite ?app_cons, ?app_nil_l;
    [done | by rewrite IH].
Qed.

Lemma take_drop (n : nat) (s : string) : PyStr.take n s ++ PyStr.drop n s = s.
Proof.
  revert s; induction n as [|n IH]; intros [|c s]; simpl; try done.
  by rewrite app_cons, IH.
Qed.

Lemma length_drop (n : nat) (s : string) :
  String.length (PyStr.drop n s) = (String.length s - n)%nat.
Proof. revert s; induction n as [|n IH]; intros [|c s]; simpl; auto. Qed.

Lemma length_take (n : nat) (s : string) :
  String.length (PyStr.take n s) = Nat.min n (String.length s).
Proof.
  revert s; induction n as [|n IH]; intros [|c s]; simpl; auto.
Qed.

Lemma drop_app_length (s t : string) : PyStr.drop (String.length s) (s ++ t) = t.
Proof.
  induction s as [|c s IH]; rewrite ?app_cons, ?app_nil_l; simpl;
    [by destruct t | done].
Qed.

Lemma take_app_length (s t : string) : PyStr.take (String.length s) (s ++ t) = s.
Proof.
  induction s as [|c s IH]; rewrite ?app_cons, ?app_nil_l; simpl;
    [by destruct t | by rewrite IH].
Qed.

Lemma drop_0 (s : string) : PyStr.drop 0 s = s.
Proof. done. Qed.

Lemma drop_drop (n m : nat) (s : string) :
  PyStr.drop n (PyStr.drop m s) = PyStr.drop (m + n) s.
Proof.
  revert s; induction m as [|m IH]; intros s; simpl; [done|].
  destruct s as [|c s]; [by destruct n | apply IH].
Qed.

Lemma length_zeros (n : nat) : String.length (PyStr.zeros n) = n.
Proof. induction n; simpl; auto. Qed.

Lemma is_bits_app (s t : string) :
  PyStr.is_bits (s ++ t) = PyStr.is_bits s && PyStr.is_bits t.
Proof.
  induction s as [|c s IH]; rewrite ?app_cons, ?app_nil_l; simpl; [done|].
  by rewrite IH, andb_assoc.
Qed.

Lemma is_bits_drop (n : nat) (s : string) :
  PyStr.is_bits s = true -> PyStr.is_bits (PyStr.drop n s) = true.
Proof.
  revert s; induction n as [|n IH]; intros [|c s]; simpl; auto.
  intros [_ H]%andb_true_iff; auto.
Qed.

Lemma is_bits_take (n : nat) (s : string) :
  PyStr.is_bits s = true -> PyStr.is_bits (PyStr.take n s) = true.
Proof.
  revert s; induction n as [|n IH]; intros [|c s]; simpl; auto.
  intros [-> H]%andb_true_iff; simpl; auto.
Qed.

Lemma is_bits_zeros (n : nat) : PyStr.is_bits (PyStr.zeros n) = true.
Proof. induction n; simpl; auto. Qed.

Lemma is_bits_bin_pos (p : positive) : PyStr.is_bits (PyStr.bin_pos p) = true.
Proof. induction p; simpl; rewrite ?is_bits_app, ?IHp; done. Qed.

Lemma msb_first_value_bounds (s : string) :
  0 <= msb_first_value s < 2 ^ Z.of_nat (String.length s).
Proof.
  induction s as [|c s IH]; simpl String.length; simpl msb_first_value; [lia|].
  rewrite Nat2Z.inj_succ, Z.pow_succ_r by lia.
  destruct (Ascii.eqb c "1"); lia.
Qed.

Lemma msb_first_value_app (s t : string) :
  msb_first_value (s ++ t)
  = msb_first_value s * 2 ^ Z.of_nat (String.length t) + msb_first_value t.
Proof.
  induction s as [|c s IH]; rewrite ?app_cons, ?app_nil_l; simpl; [lia|].
  rewrite IH, length_app, Nat2Z.inj_add, Z.pow_add_r by lia.
  destruct (Ascii.eqb c "1"); lia.
Qed.

Lemma msb_first_value_zeros (n : nat) : msb_first_value (PyStr.zeros n) = 0.
Proof. induction n; simpl; auto. Qed.

Lemma msb_first_value_bin_pos (p : positive) :
  msb_first_value (PyStr.bin_pos p) = Z.pos p.
Proof.
  induction p; simpl PyStr.bin_pos; rewrite ?msb_first_value_app, ?IHp;
    simpl; lia.
Qed.

(** On bit strings Python's base-2 reading is the positional value. *)
Lemma int_base2_from_bits (s : string) (acc : Z) :
  PyStr.is_bits s = true ->
  PyStr.int_base2_from acc s
  = Some (acc * 2 ^ Z.of_nat (String.length s) + msb_first_value s).
Proof.
  revert acc; induction s as [|c s IH]; intros acc.
  - intros _. simpl. f_equal. lia.
  - simpl PyStr.is_bits. intros [Hc Hs]%andb_true_iff.
    apply bool_decide_eq_true in Hc.
    simpl PyStr.int_base2_from. simpl String.length. simpl msb_first_value.
    unfold PyStr.bit_of_ascii in *.
    rewrite Nat2Z.inj_succ, Z.pow_succ_r by lia.
    destruct (Ascii.eqb c "0") eqn:E0.
    + apply Ascii.eqb_eq in E0; subst c. simpl Ascii.eqb.
      rewrite IH by done. f_equal. lia.
    + destruct (Ascii.eqb c "1") eqn:E1; [|by destruct Hc].
      rewrite IH by done. f_equal. lia.
Qed.

Lemma bin_to_int_bits (s : string) :
  PyStr.is_bits s = true ->
  PacketUtils.bin_to_int s = Some (msb_first_value s).
Proof.
  intros H. destruct s as [|c s]; [done|].
  unfold PacketUtils.bin_to_int, PyStr.int_base2.
  rewrite int_base2_from_bits by done. f_equal.
Qed.

Lemma bin_to_int_Some (s : string) (v : Z) :
  PacketUtils.bin_to_int s = Some v ->
  0 <= v < 2 ^ Z.of_nat (String.length s).
Proof.
  assert (forall s acc v, PyStr.int_base2_from acc s = Some v ->
            PyStr.is_bits s = true) as Hb.
  { clear. induction s as [|c s IH]; simpl; [done|]. intros acc v.
    destruct (PyStr.bit_of_ascii c) eqn:E; [|done].
    intros ->%IH. rewrite andb_true_r. apply bool_decide_eq_true. eauto. }
  destruct s as [|c s]; [intros [= <-]; split; [lia | reflexivity]|].
  unfold PacketUtils.bin_to_int, PyStr.int_base2. intros H.
  pose proof (Hb _ _ _ H) as Hbits.
  rewrite int_base2_from_bits in H by done. injection H as <-.
  pose proof (msb_first_value_bounds (String c s)) as Hv.
  change (msb_first_value (String c s)) with
    ((if Ascii.eqb c "1" then 2 ^ Z.of_nat (String.length s) else 0)
     + msb_first_value s) in Hv.
  change (String.length (String c s)) with (S (String.length s)) in *. lia.
Qed.

(** Two bit strings of one length that denote the same number are equal. *)
Lemma msb_first_value_inj (s t : string) :
  PyStr.is_bits s = true -> PyStr.is_bits t = true ->
  String.length s = String.length t ->
  msb_first_value s = msb_first_value t -> s = t.
Proof.
  revert t; induction s as [|c s IH]; intros [|d t]; simpl; try done.
  intros [Hc Hs]%andb_true_iff [Hd Ht]%andb_true_iff [= Hlen] Hv.
  apply bool_decide_eq_true in Hc, Hd. unfold PyStr.bit_of_ascii in *.
  pose proof (msb_first_value_bounds s). pose proof (msb_first_value_bounds t).
  rewrite Hlen in *.
  destruct (Ascii.eqb c "0") eqn:C0, (Ascii.eqb d "0") eqn:D0;
    try apply Ascii.eqb_eq in C0; try apply Ascii.eqb_eq in D0; subst;
    simpl in Hv.
  - f_equal. apply IH; auto.
  - destruct (Ascii.eqb d "1") eqn:D1; [lia | by destruct Hd].
  - destruct (Ascii.eqb c "1") eqn:C1; [lia | by destruct Hc].
  - destruct (Ascii.eqb c "1") eqn:C1; [|by destruct Hc].
    destruct (Ascii.eqb d "1") eqn:D1; [|by destruct Hd].
    apply Ascii.eqb_eq in C1, D1; subst. f_equal. apply IH; auto. lia.
Qed.

End string_facts.

(** ** [int_to_bin] *)

Section int_to_bin_facts.

Lemma length_zfill (w : nat) (s : string) :
  String.length (PyStr.zfill w s) = Nat.max w (String.length s).
Proof. unfold PyStr.zfill. rewrite length_app, length_zeros. lia. Qed.

Lemma length_bin_pos (p : positive) : (0 < String.length (PyStr.bin_pos p))%nat.
Proof. induction p; simpl PyStr.bin_pos; rewrite ?length_app; simpl; lia. Qed.

(** The formatted text of a non-negative number: digits only, at least
    [b] of them, denoting the number. *)
Lemma format_0b_nonneg (v : Z) (b : nat) :
  0 <= v ->
  PyStr.is_bits (PyStr.format_0b v b) = true
  /\ msb_first_value (PyStr.format_0b v b) = v
  /\ (b <= String.length (PyStr.format_0b v b))%nat.
Proof.
  intros Hv. destruct v as [|p|p]; [| |lia]; unfold PyStr.format_0b.
  - rewrite length_zfill. unfold PyStr.zfill.
    rewrite is_bits_app, is_bits_zeros, msb_first_value_app,
      msb_first_value_zeros. repeat split; simpl; try done; lia.
  - rewrite length_zfill. unfold PyStr.zfill.
    rewrite is_bits_app, is_bits_zeros, is_bits_bin_pos,
      msb_first_value_app, msb_first_value_zeros, msb_first_value_bin_pos.
    repeat split; lia.
Qed.

Lemma length_suffix (b : nat) (s : string) :
  (0 < b <= String.length s)%nat -> String.length (PyStr.suffix b s) = b.
Proof.
  intros H. unfold PyStr.suffix. destruct b; [lia|].
  rewrite length_drop. lia.
Qed.

(** Whatever the sign of the value, a positive width is respected. *)
Lemma length_int_to_bin (v : Z) (b : nat) :
  (0 < b)%nat -> String.length (PacketUtils.int_to_bin v b) = b.
Proof.
  intros Hb. unfold PacketUtils.int_to_bin. apply length_suffix.
  split; [done|]. destruct v as [|p|p]; unfold PyStr.format_0b.
  - rewrite length_zfill. lia.
  - rewrite length_zfill. lia.
  - simpl String.length. rewrite length_zfill. lia.
Qed.

Lemma int_to_bin_nonneg (v : Z) (b : nat) :
  0 <= v -> (0 < b)%nat ->
  PyStr.is_bits (PacketUtils.int_to_bin v b) = true
  /\ msb_first_value (PacketUtils.int_to_bin v b) = v mod 2 ^ Z.of_nat b.
Proof.
  intros Hv Hb. pose proof (length_int_to_bin v b Hb) as Hlen.
  destruct (format_0b_nonneg v b Hv) as (Hbits & Hval & Hge).
  unfold PacketUtils.int_to_bin, PyStr.suffix in *.
  destruct b as [|b']; [lia|]. set (b := S b') in *.
  set (s := PyStr.format_0b v b) in *.
  set (k := (String.length s - b)%nat) in *.
  split; [by apply is_bits_drop|].
  rewrite <- (take_drop k s), msb_first_value_app, Hlen in Hval.
  pose proof (msb_first_value_bounds (PyStr.drop k s)) as Hbd.
  rewrite Hlen in Hbd.
  apply (Z.mod_unique_pos _ _ (msb_first_value (PyStr.take k s))); lia.
Qed.

(** A value that fits its width is written as it is. *)
Lemma int_to_bin_fits (v : Z) (b : nat) :
  (0 < b)%nat -> 0 <= v < 2 ^ Z.of_nat b ->
  PyStr.is_bits (PacketUtils.int_to_bin v b) = true
  /\ msb_first_value (PacketUtils.int_to_bin v b) = v
  /\ String.length (PacketUtils.int_to_bin v b) = b.
Proof.
  intros Hb Hv. destruct (int_to_bin_nonneg v b) as [H1 H2]; [lia | done |].
  rewrite Z.mod_small in H2 by done. auto using length_int_to_bin.
Qed.

End int_to_bin_facts.

(** C2: on a negative value the code does not return the fixed-width
    string over 0 and 1 that its docstring and the cut [[-bits:]] are
    written for: Python pads the magnitude and keeps the sign, so
    [int_to_bin(-1, 3)] is the text ["-01"], where the specification asks for the
    encoding ["111"] of [-1 mod 2^3 = 7]; the telegram [encode_packet]
    builds from such a value is no bit string. *)
Lemma int_to_bin_negative_value :
  PacketUtils.int_to_bin (-1) 3 = "-01"
  /\ PyStr.is_bits (PacketUtils.int_to_bin (-1) 3) = false
  /\ (-1) mod 2 ^ 3 = 7
  /\ PacketUtils.int_to_bin 7 3 = "111"
  /\ encode_packet "CTCS-5" {[ "Q_DIR" := -1 ]} = "000000101-10"
  /\ PyStr.is_bits (encode_packet "CTCS-5" {[ "Q_DIR" := -1 ]}) = false.
Proof. repeat split; vm_compute; reflexivity. Qed.

(** On the values that are not negative the code does what is asked: for
    every such [v] and every positive bit count [b], [int_to_bin v b] has
    exactly [b] characters, all 0 or 1, and is the
    most-significant-bit-first representation of [v mod 2^b]; so [v] and
    [v + 2^b] are encoded alike. *)
Theorem int_to_bin_nonneg_spec (v : Z) (b : nat) :
  0 <= v -> (0 < b)%nat ->
  String.length (PacketUtils.int_to_bin v b) = b
  /\ PyStr.is_bits (PacketUtils.int_to_bin v b) = true
  /\ msb_first_value (PacketUtils.int_to_bin v b) = v mod 2 ^ Z.of_nat b
  /\ PacketUtils.int_to_bin (v + 2 ^ Z.of_nat b) b = PacketUtils.int_to_bin v b.
Proof.
  intros Hv Hb.
  destruct (int_to_bin_nonneg v b Hv Hb) as [Hbits Hval].
  assert (0 < 2 ^ Z.of_nat b) as Hpow by (apply Z.pow_pos_nonneg; lia).
  destruct (int_to_bin_nonneg (v + 2 ^ Z.of_nat b) b) as [Hbits' Hval'];
    [lia | done |].
  repeat split; auto using length_int_to_bin.
  apply msb_first_value_inj; auto.
  - by rewrite !length_int_to_bin.
  - rewrite Hval, Hval'.
    rewrite <- (Z.mul_1_l (2 ^ Z.of_nat b)) at 1.
    apply Z.mod_add. lia.
Qed.

Lemma int_to_bin_nonneg_spec_witness :
  String.length (PacketUtils.int_to_bin 13 3) = 3%nat
  /\ PyStr.is_bits (PacketUtils.int_to_bin 13 3) = true
  /\ msb_first_value (PacketUtils.int_to_bin 13 3) = 13 mod 2 ^ Z.of_nat 3
  /\ PacketUtils.int_to_bin (13 + 2 ^ Z.of_nat 3) 3 = PacketUtils.int_to_bin 13 3.
Proof. apply (int_to_bin_nonneg_spec 13 3); lia. Defined.

(** ** The packet table *)

Lemma PACKET_DEFS_lookup (P : string) (defs : list field) :
  PACKET_DEFS !! P = Some defs -> (P, defs) ∈ PACKET_DEFS_items.
Proof. apply elem_of_list_to_map_2. Qed.

(** Splits a goal about a known packet into one goal per table entry. *)
Ltac packet_cases H :=
  apply PACKET_DEFS_lookup in H; unfold PACKET_DEFS_items in H;
  repeat (apply elem_of_cons in H as [H|H]; [injection H as -> ->|]);
  [..|by apply elem_of_nil in H].

Lemma PACKET_DEFS_nonempty (P : string) (defs : list field) :
  PACKET_DEFS !! P = Some defs -> defs <> [].
Proof. intros H. packet_cases H; done. Qed.

Lemma PACKET_DEFS_names_unique (P : string) (defs : list field) :
  PACKET_DEFS !! P = Some defs -> NoDup (name <$> defs).
Proof.
  intros H. packet_cases H; apply (bool_decide_unpack _); vm_compute; exact I.
Qed.

Lemma PACKET_DEFS_len_pos (P : string) (defs : list field) (f : field) :
  PACKET_DEFS !! P = Some defs -> f ∈ defs -> (0 < len f)%nat.
Proof.
  intros H Hf. packet_cases H;
    repeat (apply elem_of_cons in Hf as [->|Hf]; [simpl; lia|]);
    by apply elem_of_nil in Hf.
Qed.

Lemma unique_name_field (defs : list field) (f g : field) :
  NoDup (name <$> defs) -> f ∈ defs -> g ∈ defs -> name f = name g -> f = g.
Proof.
  induction defs as [|h defs IH]; [by intros _ ?%elem_of_nil|].
  rewrite fmap_cons, NoDup_cons, !elem_of_cons.
  intros [Hh Hnd] [->|Hf] [->|Hg] Heq; auto.
  - destruct Hh. rewrite Heq. by apply list_elem_of_fmap_2.
  - destruct Hh. rewrite <- Heq. by apply list_elem_of_fmap_2.
Qed.

(** ** [decode_packet] *)

Section decode_facts.

Lemma decode_packet_known (P : string) (defs : list field) (s : string) :
  PACKET_DEFS !! P = Some defs ->
  decode_packet P s = Fields <$> decode_fields defs s ∅ 0.
Proof.
  intros H. unfold decode_packet. rewrite H.
  apply PACKET_DEFS_nonempty in H. by destruct defs.
Qed.

Lemma length_slice (s : string) (ptr n : nat) :
  (ptr + n <= String.length s)%nat ->
  String.length (PyStr.slice ptr (ptr + n) s) = n.
Proof.
  intros H. unfold PyStr.slice. rewrite length_take, length_drop. lia.
Qed.

Lemma is_bits_slice (s : string) (lo hi : nat) :
  PyStr.is_bits s = true -> PyStr.is_bits (PyStr.slice lo hi s) = true.
Proof. intros H. by apply is_bits_take, is_bits_drop. Qed.

(** The [break] of the loop: a present field that does not fit ends the
    decoding with the fields read so far. *)
Lemma decode_fields_break (f : field) (rest : list field) (s : string)
    (result : gmap string Z) (ptr : nat) :
  present f result = true -> (String.length s < ptr + len f)%nat ->
  decode_fields (f :: rest) s result ptr = Some result.
Proof.
  intros Hp Hlt. simpl. rewrite Hp. simpl.
  by apply Nat.ltb_lt in Hlt as ->.
Qed.

(** On a bit string no slice is malformed: the loop returns. *)
Lemma decode_fields_total (defs : list field) (s : string)
    (result : gmap string Z) (ptr : nat) :
  PyStr.is_bits s = true -> is_Some (decode_fields defs s result ptr).
Proof.
  intros Hs. revert result ptr.
  induction defs as [|f rest IH]; intros result ptr; simpl; [eauto|].
  destruct (negb (present f result)); [apply IH|].
  destruct (String.length s <? ptr + len f)%nat; [eauto|].
  rewrite bin_to_int_bits by (by apply is_bits_slice). apply IH.
Qed.

(** Every value of the result was there at the start or was read from
    exactly [len f] bits for a field [f] of that name. *)
Lemma decode_fields_bounds (defs : list field) (s : string)
    (result result' : gmap string Z) (ptr : nat) (k : string) (v : Z) :
  decode_fields defs s result ptr = Some result' ->
  result' !! k = Some v ->
  result !! k = Some v
  \/ exists f, f ∈ defs /\ name f = k /\ 0 <= v < 2 ^ Z.of_nat (len f).
Proof.
  revert result ptr.
  induction defs as [|f rest IH]; intros result ptr; simpl.
  { intros [= ->] ?. by left. }
  destruct (negb (present f result)).
  { intros H1 H2. destruct (IH _ _ H1 H2) as [?|(g & ? & ? & ?)]; [by left|].
    right. exists g. rewrite elem_of_cons. auto. }
  destruct (String.length s <? ptr + len f)%nat eqn:Hlt.
  { intros [= ->] ?. by left. }
  apply Nat.ltb_ge in Hlt.
  destruct (PacketUtils.bin_to_int _) as [w|] eqn:Hw; [|done].
  intros H1 H2. apply bin_to_int_Some in Hw.
  rewrite length_slice in Hw by done.
  destruct (IH _ _ H1 H2) as [Hk|(g & ? & ? & ?)].
  - destruct (decide (name f = k)) as [<-|Hne].
    + rewrite lookup_insert_eq in Hk. injection Hk as ->.
      right. exists f. rewrite elem_of_cons. auto.
    + rewrite lookup_insert_ne in Hk by done. by left.
  - right. exists g. rewrite elem_of_cons. auto.
Qed.

End decode_facts.

Section decode_cut.

Lemma PACKET_DEFS_conds_look_back (P : string) (defs : list field) :
  PACKET_DEFS !! P = Some defs -> conds_look_back [] defs.
Proof.
  intros H. packet_cases H; simpl; repeat split; intros R R' HR;
    unfold present; simpl; try done;
    unfold get_eq; apply bool_decide_ext; rewrite HR; [done|set_solver..].
Qed.

Lemma conds_look_back_lookup (seen : list string) (defs : list field)
    (j : nat) (f : field) (R R' : gmap string Z) :
  conds_look_back seen defs -> defs !! j = Some f ->
  (forall n, n ∈ seen \/ n ∈ name <$> take j defs -> R !! n = R' !! n) ->
  present f R = present f R'.
Proof.
  revert seen j. induction defs as [|g defs IH]; intros seen j; [done|].
  intros [Hg Hrest] Hj Hagree. destruct j as [|j]; simpl in Hj.
  - injection Hj as <-. apply Hg. intros n Hn. apply Hagree. by left.
  - apply (IH (name g :: seen) j Hrest Hj). intros n Hn. apply Hagree.
    rewrite firstn_cons, fmap_cons, !elem_of_cons in *. tauto.
Qed.

Lemma encoded_width_app (R : gmap string Z) (l1 l2 : list field) :
  encoded_width R (l1 ++ l2) = (encoded_width R l1 + encoded_width R l2)%nat.
Proof.
  unfold encoded_width. rewrite List.filter_app, fmap_app.
  induction (len <$> List.filter _ l1) as [|x l IH]; simpl; [done|].
  rewrite IH. lia.
Qed.

Lemma encoded_width_ext (R R' : gmap string Z) (l : list field) :
  (forall g, g ∈ l -> present g R = present g R') ->
  encoded_width R l = encoded_width R' l.
Proof.
  intros H. unfold encoded_width. f_equal. f_equal.
  apply List.filter_ext_in. intros g Hg. apply H. by apply list_elem_of_In.
Qed.

Variables (defs : list field) (s : string).
Hypothesis Hnd : NoDup (name <$> defs).
Hypothesis Hback : conds_look_back [] defs.
Hypothesis Hbits : PyStr.is_bits s = true.

Lemma names_differ (i j : nat) (f g : field) :
  defs !! i = Some f -> defs !! j = Some g -> i <> j -> name f <> name g.
Proof.
  intros Hi Hj Hne Heq. apply Hne.
  apply (NoDup_lookup (name <$> defs) i j (name f)); [done|..].
  - by rewrite list_lookup_fmap, Hi.
  - by rewrite list_lookup_fmap, Hj, Heq.
Qed.

(** A field read at the position [k] changes no condition up to [k]. *)
Lemma present_insert (k : nat) (f : field) (v : Z) (R : gmap string Z)
    (j : nat) (g : field) :
  defs !! k = Some f -> defs !! j = Some g -> (j <= k)%nat ->
  present g (<[name f := v]> R) = present g R.
Proof.
  intros Hk Hj Hle. apply (conds_look_back_lookup [] defs j); [done..|].
  intros n [Hn|Hn]; [by apply elem_of_nil in Hn|].
  apply list_elem_of_fmap in Hn as (h & -> & Hh).
  apply list_elem_of_lookup in Hh as [i Hi].
  apply lookup_take_Some in Hi as [Hi Hlt].
  apply lookup_insert_ne. apply (names_differ k i); [done..|lia].
Qed.

Lemma field_start_insert (k : nat) (f : field) (v : Z) (R : gmap string Z)
    (j : nat) :
  defs !! k = Some f -> (j <= S k)%nat ->
  field_start (<[name f := v]> R) defs j = field_start R defs j.
Proof.
  intros Hk Hle. apply encoded_width_ext. intros g Hg.
  apply list_elem_of_lookup in Hg as [i Hi].
  apply lookup_take_Some in Hi as [Hi Hlt].
  apply (present_insert k f v R i g); [done..|lia].
Qed.

Lemma field_start_S (k : nat) (f : field) (R : gmap string Z) :
  defs !! k = Some f ->
  field_start R defs (S k)
  = (field_start R defs k + if present f R then len f else 0)%nat.
Proof.
  intros Hk. unfold field_start.
  rewrite (take_S_r _ _ _ Hk), encoded_width_app. f_equal.
  unfold encoded_width. simpl. destruct (present f R); simpl; lia.
Qed.

(** The loop from the position [k] on: it returns, and what it returns
    is what was read up to the position where it stops. *)
Lemma decode_fields_cut (rest : list field) (k : nat) (R : gmap string Z) :
  drop k defs = rest -> (k <= length defs)%nat -> read_to defs s k R ->
  exists R' k',
    decode_fields rest s R (field_start R defs k) = Some R'
    /\ (k' <= length defs)%nat
    /\ read_to defs s k' R'
    /\ (k' = length defs
        \/ exists f, defs !! k' = Some f /\ present f R' = true
             /\ (String.length s < field_start R' defs k' + len f)%nat).
Proof.
  revert k R. induction rest as [|f rest IH]; intros k R Hdrop Hk Hinv.
  { exists R, k. split_and!; [done..|]. left.
    apply drop_nil_inv in Hdrop. lia. }
  assert (defs !! k = Some f) as Hf.
  { rewrite <- (Nat.add_0_r k), <- lookup_drop, Hdrop. done. }
  assert (drop (S k) defs = rest) as Hdrop'.
  { rewrite (drop_S _ _ _ Hf) in Hdrop. by injection Hdrop. }
  assert (S k <= length defs)%nat as Hk'.
  { apply lookup_lt_Some in Hf. lia. }
  destruct Hinv as (Hptr & Hval & Hdom).
  cbn [decode_fields].
  destruct (present f R) eqn:Hp; cbn [negb].
  2: { assert (field_start R defs k = field_start R defs (S k)) as ->
         by (rewrite (field_start_S k f) by done; rewrite Hp; lia).
       apply IH; [done..|]. split_and!; [|intros j g Hg|done].
       - rewrite (field_start_S k f), Hp by done. lia.
       - rewrite (Hval j g Hg). destruct (decide (j = k)) as [->|Hne].
         + rewrite Hf in Hg. injection Hg as <-.
           by rewrite Hp, Nat.ltb_irrefl, !andb_false_r.
         + destruct (j <? k)%nat eqn:E1;
             destruct (j <? S k)%nat eqn:E2; try done.
           * apply Nat.ltb_lt in E1. apply Nat.ltb_ge in E2. lia.
           * apply Nat.ltb_ge in E1. apply Nat.ltb_lt in E2. lia. }
  destruct (String.length s <? field_start R defs k + len f)%nat eqn:Hfit.
  { apply Nat.ltb_lt in Hfit. exists R, k.
    split_and!; [done|lia|done|]. right. exists f. done. }
  apply Nat.ltb_ge in Hfit.
  rewrite bin_to_int_bits by (by apply is_bits_slice).
  set (v := msb_first_value _).
  set (R1 := <[name f := v]> R).
  assert (field_start R defs k + len f = field_start R1 defs (S k))%nat as ->.
  { unfold R1. rewrite (field_start_insert k f v R (S k)) by done.
    rewrite (field_start_S k f), Hp by done. done. }
  apply IH; [done..|]. split_and!.
  - unfold R1. rewrite (field_start_insert k f v R (S k)) by done.
    rewrite (field_start_S k f), Hp by done. done.
  - intros j g Hg. destruct (decide (j = k)) as [->|Hne].
    + rewrite Hf in Hg. injection Hg as <-.
      unfold R1 at 1. rewrite lookup_insert_eq.
      assert ((k <? S k)%nat = true) as -> by (apply Nat.ltb_lt; lia).
      unfold R1. rewrite (present_insert k f v R k f) by done.
      rewrite Hp. simpl. f_equal. unfold field_value.
      by rewrite (field_start_insert k f v R k) by (done || lia).
    + unfold R1 at 1. rewrite lookup_insert_ne
        by (apply (names_differ k j); done || lia).
      rewrite (Hval j g Hg).
      destruct (j <? k)%nat eqn:E1.
      * apply Nat.ltb_lt in E1.
        assert ((j <? S k)%nat = true) as -> by (apply Nat.ltb_lt; lia).
        unfold R1. rewrite (present_insert k f v R j g) by (done || lia).
        unfold field_value.
        by rewrite (field_start_insert k f v R j) by (done || lia).
      * apply Nat.ltb_ge in E1.
        assert ((j <? S k)%nat = false) as -> by (apply Nat.ltb_ge; lia).
        done.
  - intros n. unfold R1. destruct (decide (n = name f)) as [->|Hn].
    + intros _. apply list_elem_of_fmap_2. by eapply list_elem_of_lookup_2.
    + rewrite lookup_insert_ne by done. apply Hdom.
Qed.

(** The whole loop. *)
Lemma decode_fields_cut_0 :
  exists R k,
    decode_fields defs s ∅ 0 = Some R
    /\ (k <= length defs)%nat
    /\ read_to defs s k R
    /\ (k = length defs
        \/ exists f, defs !! k = Some f /\ present f R = true
             /\ (String.length s < field_start R defs k + len f)%nat).
Proof.
  apply (decode_fields_cut defs 0 ∅); [done|lia|].
  split_and!.
  - unfold field_start, encoded_width. simpl. lia.
  - intros j f Hf. by rewrite lookup_empty.
  - intros n [v Hv]. by rewrite lookup_empty in Hv.
Qed.

End decode_cut.

(** C9: for every known packet and every bit string, however short,
    [decode_packet] returns a mapping and does not fail.  The loop stops at
    the first present field whose bits would end past the string, or at
    the end of the definition; the mapping returned holds exactly the
    fields decoded so far, each present field above that position with the
    number its bits denote, and nothing else. *)
Theorem decode_packet_short_input (P : string) (defs : list field)
    (bin_str : string) :
  PACKET_DEFS !! P = Some defs ->
  PyStr.is_bits bin_str = true ->
  exists result k,
    decode_packet P bin_str = Some (Fields result)
    /\ (k <= length defs)%nat
    /\ (field_start result defs k <= String.length bin_str)%nat
    /\ (k = length defs
        \/ exists f, defs !! k = Some f /\ present f result = true
             /\ (String.length bin_str < field_start result defs k + len f)%nat)
    /\ (forall j f, defs !! j = Some f ->
          result !! name f
          = if (j <? k)%nat && present f result
            then Some (field_value bin_str result defs j f) else None)
    /\ (forall n, is_Some (result !! n) -> n ∈ name <$> defs).
Proof.
  intros HP Hbits. rewrite (decode_packet_known P defs) by done.
  destruct (decode_fields_cut_0 defs bin_str) as (R & k & -> & Hk & Hread & Hstop);
    [by eapply PACKET_DEFS_names_unique
    |by eapply PACKET_DEFS_conds_look_back|done|].
  destruct Hread as (Hptr & Hval & Hdom).
  exists R, k. split_and!; done.
Qed.

Lemma decode_packet_short_input_witness :
  exists result k,
    decode_packet "CTCS-5" "00000010110" = Some (Fields result)
    /\ (k <= length CTCS_5)%nat
    /\ (field_start result CTCS_5 k <= String.length "00000010110")%nat
    /\ (k = length CTCS_5
        \/ exists f, CTCS_5 !! k = Some f /\ present f result = true
             /\ (String.length "00000010110"
                 < field_start result CTCS_5 k + len f)%nat)
    /\ (forall j f, CTCS_5 !! j = Some f ->
          result !! name f
          = if (j <? k)%nat && present f result
            then Some (field_value "00000010110" result CTCS_5 j f) else None)
    /\ (forall n, is_Some (result !! n) -> n ∈ name <$> CTCS_5).
Proof.
  apply (decode_packet_short_input "CTCS-5" CTCS_5 "00000010110"); reflexivity.
Defined.

(** C10: for every known packet and every string over 0 and 1, each value
    of the mapping [decode_packet] returns belongs to a field of the packet
    definition and satisfies [0 <= value < 2^L] for the bit length [L] the
    table declares for that field. *)
Theorem decode_packet_value_bounds (P : string) (defs : list field)
    (bin_str : string) :
  PACKET_DEFS !! P = Some defs ->
  PyStr.is_bits bin_str = true ->
  exists result,
    decode_packet P bin_str = Some (Fields result)
    /\ forall k v, result !! k = Some v ->
         (exists f, f ∈ defs /\ name f = k)
         /\ (forall f, f ∈ defs -> name f = k -> 0 <= v < 2 ^ Z.of_nat (len f)).
Proof.
  intros HP Hbits. rewrite (decode_packet_known P defs) by done.
  destruct (decode_fields_total defs bin_str ∅ 0 Hbits) as [r Hr].
  exists r. rewrite Hr. split; [done|]. intros k v Hk.
  destruct (decode_fields_bounds _ _ _ _ _ _ _ Hr Hk) as [H|(g & Hg & Hn & Hv)].
  { by rewrite lookup_empty in H. }
  split; [eauto|]. intros f Hf Hfn.
  assert (f = g) as ->; [|done].
  eapply unique_name_field; eauto using PACKET_DEFS_names_unique. congruence.
Qed.

Lemma decode_packet_value_bounds_witness :
  exists result,
    decode_packet "CTCS-5" "000000101011" = Some (Fields result)
    /\ forall k v, result !! k = Some v ->
         (exists f, f ∈ CTCS_5 /\ name f = k)
         /\ (forall f, f ∈ CTCS_5 -> name f = k -> 0 <= v < 2 ^ Z.of_nat (len f)).
Proof. apply (decode_packet_value_bounds "CTCS-5" CTCS_5); reflexivity. Defined.

(** ** Round trip of [encode_packet] and [decode_packet] *)

Section roundtrip_facts.

Lemma encode_step_app (data : gmap string Z) (acc : string) (f : field) :
  encode_step data acc f = acc ++ encode_step data "" f.
Proof.
  unfold encode_step. destruct (present f data); [done|].
  by rewrite app_empty_r.
Qed.

Lemma fold_encode_step (data : gmap string Z) (defs : list field) (acc : string) :
  fold_left (encode_step data) defs acc = acc ++ encode_fields data defs.
Proof.
  revert acc; induction defs as [|f rest IH]; intros acc; simpl.
  - by rewrite app_empty_r.
  - by rewrite IH, encode_step_app, app_assoc_str.
Qed.

Lemma encode_packet_fields (P : string) (defs : list field)
    (data : gmap string Z) :
  PACKET_DEFS !! P = Some defs ->
  encode_packet P data = encode_fields data defs.
Proof.
  intros H. unfold encode_packet. rewrite H.
  apply PACKET_DEFS_nonempty in H. destruct defs; [done|].
  by rewrite fold_encode_step.
Qed.

(** Only the text from [ptr] on matters to the loop of the decoder. *)
Lemma decode_fields_drop (defs : list field) (s : string)
    (result : gmap string Z) (ptr : nat) :
  (ptr <= String.length s)%nat ->
  decode_fields defs s result ptr
  = decode_fields defs (PyStr.drop ptr s) result 0.
Proof.
  revert s result ptr.
  induction defs as [|f rest IH]; intros s result ptr Hle; simpl; [done|].
  destruct (negb (present f result)); [by apply IH|].
  rewrite length_drop.
  destruct (String.length s <? ptr + len f)%nat eqn:E1.
  - apply Nat.ltb_lt in E1.
    by replace (_ <? _)%nat with true by (symmetry; apply Nat.ltb_lt; lia).
  - apply Nat.ltb_ge in E1.
    replace (_ <? _)%nat with false by (symmetry; apply Nat.ltb_ge; lia).
    unfold PyStr.slice. rewrite drop_0, Nat.sub_0_r.
    replace (ptr + len f - ptr)%nat with (len f) by lia.
    destruct (PacketUtils.bin_to_int _); [|done].
    rewrite (IH s _ (ptr + len f)%nat) by lia.
    rewrite (IH (PyStr.drop ptr s) _ (len f)), drop_drop; [done|].
    rewrite length_drop. lia.
Qed.

(** Reading the field [f] off the front of the text. *)
Lemma decode_read (f : field) (rest : list field) (post : string)
    (result : gmap string Z) (v : Z) :
  present f result = true -> (0 < len f)%nat ->
  0 <= v < 2 ^ Z.of_nat (len f) ->
  decode_fields (f :: rest) (PacketUtils.int_to_bin v (len f) ++ post) result 0
  = decode_fields rest post (<[name f := v]> result) 0.
Proof.
  intros Hp Hlen Hv.
  destruct (int_to_bin_fits v (len f) Hlen Hv) as (Hbits & Hval & Hl).
  generalize dependent (PacketUtils.int_to_bin v (len f)). intros chunk ? ? Hl.
  simpl. rewrite Hp. simpl. rewrite length_app, Hl.
  replace (_ <? _)%nat with false by (symmetry; apply Nat.ltb_ge; lia).
  unfold PyStr.slice. rewrite Nat.sub_0_r, drop_0.
  rewrite <- Hl, take_app_length.
  rewrite bin_to_int_bits by done. subst v.
  rewrite decode_fields_drop by (rewrite length_app; lia).
  by rewrite drop_app_length.
Qed.

Lemma decode_skip (f : field) (rest : list field) (s : string)
    (result : gmap string Z) (ptr : nat) :
  present f result = false ->
  decode_fields (f :: rest) s result ptr = decode_fields rest s result ptr.
Proof. intros Hp. simpl. by rewrite Hp. Qed.

Lemma fits_widths_lookup (defs : list field) (data : gmap string Z) (f : field) :
  fits_widths defs data = true -> f ∈ defs ->
  0 <= default 0 (data !! name f) < 2 ^ Z.of_nat (len f).
Proof.
  unfold fits_widths. rewrite forallb_forall. intros H Hf.
  specialize (H f). rewrite <- list_elem_of_In in H. specialize (H Hf).
  assert (0 < 2 ^ Z.of_nat (len f)) by (apply Z.pow_pos_nonneg; lia).
  destruct (data !! name f); simpl; lia.
Qed.

Lemma get_eq_insert_eq (k : string) (c v : Z) (d : gmap string Z) :
  get_eq k c (<[k := v]> d) = bool_decide (v = c).
Proof.
  unfold get_eq. rewrite lookup_insert_eq.
  apply bool_decide_ext. split; congruence.
Qed.

Lemma get_eq_insert_ne (k k' : string) (c v : Z) (d : gmap string Z) :
  k' <> k -> get_eq k c (<[k' := v]> d) = get_eq k c d.
Proof. intros H. unfold get_eq. by rewrite lookup_insert_ne. Qed.

Lemma get_eq_lookup (k : string) (c : Z) (d : gmap string Z) (o : option Z) :
  d !! k = o -> get_eq k c d = bool_decide (o = Some c).
Proof. by intros <-. Qed.

Lemma fits_written (defs : list field) (data : gmap string Z) (f : field) :
  fits_widths defs data = true -> f ∈ defs ->
  match val f with
  | Some v => 0 <= v < 2 ^ Z.of_nat (len f)
  | None => True
  end ->
  0 <= written data f < 2 ^ Z.of_nat (len f).
Proof.
  intros Hfit Hf Hv. unfold written. destruct (val f); [done|].
  by apply (fits_widths_lookup defs).
Qed.

(** A field written by the encoder and expected by the decoder. *)
Lemma roundtrip_read (data result : gmap string Z) (f : field)
    (rest : list field) :
  present f data = true -> present f result = true ->
  (0 < len f)%nat -> 0 <= written data f < 2 ^ Z.of_nat (len f) ->
  decode_fields (f :: rest) (encode_fields data (f :: rest)) result 0
  = decode_fields rest (encode_fields data rest)
      (<[name f := written data f]> result) 0.
Proof.
  intros Hd Hr Hlen Hv. cbn [encode_fields]. unfold encode_step.
  rewrite Hd, app_nil_l. by apply decode_read.
Qed.

(** A field left out by both. *)
Lemma roundtrip_skip (data result : gmap string Z) (f : field)
    (rest : list field) :
  present f data = false -> present f result = false ->
  decode_fields (f :: rest) (encode_fields data (f :: rest)) result 0
  = decode_fields rest (encode_fields data rest) result 0.
Proof.
  intros Hd Hr. cbn [encode_fields]. unfold encode_step.
  rewrite Hd, app_nil_l. by apply decode_skip.
Qed.

(** A field the decoder expects after the end of the text. *)
Lemma roundtrip_end (data result : gmap string Z) (f : field)
    (rest : list field) :
  present f result = true -> (0 < len f)%nat ->
  encode_fields data (f :: rest) = "" ->
  decode_fields (f :: rest) (encode_fields data (f :: rest)) result 0
  = Some result.
Proof.
  intros Hr Hlen ->. apply decode_fields_break; [done|]. simpl. lia.
Qed.

End roundtrip_facts.

(** Evaluates a presence condition on the input or on the decoded fields. *)
Ltac eval_present :=
  unfold present; cbn [cond fld fixed when]; try reflexivity;
  rewrite ?get_eq_insert_ne by done;
  rewrite ?get_eq_insert_eq;
  try (erewrite get_eq_lookup by eassumption);
  unfold written; cbn [val name fld fixed when];
  repeat match goal with
         | H : ?V !! ?k = _ |- context [?V !! ?k] => rewrite H
         end;
  cbn [default from_option]; unfold id;
  first [ reflexivity
        | by apply bool_decide_eq_true_2; congruence
        | by apply bool_decide_eq_false_2; congruence ].

(** One field of the round trip: written and read, or left out by both. *)
Ltac roundtrip_step Hfit :=
  first
  [ rewrite roundtrip_read;
    [ | eval_present | eval_present | cbn; lia
      | apply (fits_written _ _ _ Hfit);
        [ repeat first [apply list_elem_of_here | apply list_elem_of_further]
        | cbn; try lia; exact I ] ]
  | rewrite roundtrip_skip; [ | eval_present | eval_present ]
  | rewrite roundtrip_end;
    [ | eval_present | cbn; lia
      | cbn [encode_fields]; unfold encode_step;
        repeat (replace (present _ _) with false by (symmetry; eval_present));
        reflexivity ] ].

(** The fields of the input are found in the decoded mapping. *)
Ltac roundtrip_lookup :=
  let f := fresh "f" in let v := fresh "v" in
  let Hf := fresh "Hf" in let Hval := fresh "Hval" in
  let Hpres := fresh "Hpres" in let Hv := fresh "Hv" in
  intros f v Hf Hval Hpres Hv;
  repeat (apply elem_of_cons in Hf as [->|Hf]);
  [..|by apply elem_of_nil in Hf];
  cbn [val name cond fld fixed when present] in Hval, Hpres, Hv |- *;
  try discriminate Hval; try discriminate Hpres;
  unfold written; cbn [val name fld fixed when];
  first
  [ by (rewrite ?lookup_insert_ne by done; rewrite lookup_insert_eq, Hv)
  | by (exfalso; unfold get_eq in Hpres; apply bool_decide_eq_true in Hpres;
        congruence) ].

Ltac roundtrip_run Hfit :=
  eexists; split; [repeat (roundtrip_step Hfit); reflexivity | roundtrip_lookup].

(** Splits on the input value of the field the conditions look at. *)
Ltac roundtrip_on V k Hfit :=
  let q := fresh "q" in let E := fresh "E" in
  destruct (V !! k) as [q|] eqn:E;
  [ destruct (decide (q = 0)) as [->|?];
    [|destruct (decide (q = 1)) as [->|?]] | ];
  roundtrip_run Hfit.

(** C1: for every known packet [P] and every input [V] whose values are
    non-negative and fit the declared widths, decoding the encoding of [V]
    returns a mapping that gives back the value of every field of [V] that
    has no fixed value in the definition of [P] and whose presence
    condition holds under [V]. *)
Theorem encode_decode_roundtrip (P : string) (defs : list field)
    (V : gmap string Z) :
  PACKET_DEFS !! P = Some defs ->
  fits_widths defs V = true ->
  exists result,
    decode_packet P (encode_packet P V) = Some (Fields result)
    /\ forall f v, f ∈ defs -> val f = None -> present f V = true ->
         V !! name f = Some v -> result !! name f = Some v.
Proof.
  intros HP Hfit.
  rewrite (decode_packet_known P defs), (encode_packet_fields P defs) by done.
  enough (exists R, decode_fields defs (encode_fields V defs) ∅ 0 = Some R
            /\ forall f v, f ∈ defs -> val f = None -> present f V = true ->
                 V !! name f = Some v -> R !! name f = Some v)
    as (R & -> & HR) by eauto.
  packet_cases HP.
  - unfold ETCS_5 in *. roundtrip_on V "Q_NEWCOUNTRY" Hfit.
  - unfold CTCS_1 in *. roundtrip_run Hfit.
  - unfold ETCS_21 in *. roundtrip_run Hfit.
  - unfold ETCS_27 in *. roundtrip_run Hfit.
  - unfold ETCS_41 in *. roundtrip_on V "M_LEVELTR" Hfit.
  - unfold CTCS_2 in *. roundtrip_run Hfit.
  - unfold CTCS_4 in *. roundtrip_run Hfit.
  - unfold CTCS_5 in *. roundtrip_run Hfit.
  - unfold ETCS_68 in *. roundtrip_on V "Q_TRACKINIT" Hfit.
  - unfold ETCS_79 in *. roundtrip_on V "Q_NEWCOUNTRY" Hfit.
Qed.

Lemma encode_decode_roundtrip_witness :
  exists result,
    decode_packet "CTCS-5"
      (encode_packet "CTCS-5" {[ "Q_DIR" := 1; "Q_STOP" := 1 ]})
    = Some (Fields result)
    /\ forall f v, f ∈ CTCS_5 -> val f = None ->
         present f ({[ "Q_DIR" := 1; "Q_STOP" := 1 ]} : gmap string Z) = true ->
         ({[ "Q_DIR" := 1; "Q_STOP" := 1 ]} : gmap string Z) !! name f = Some v ->
         result !! name f = Some v.
Proof.
  apply (encode_decode_roundtrip "CTCS-5" CTCS_5 {[ "Q_DIR" := 1; "Q_STOP" := 1 ]});
    reflexivity.
Defined.

(** The example of the specification: twelve bits for CTCS-5. *)
Example encode_packet_CTCS_5 :
  encode_packet "CTCS-5" {[ "Q_DIR" := 1; "Q_STOP" := 1 ]} = "000000101011".
Proof. reflexivity. Qed.

(** ** Decimal text *)

Section decimal_facts.

Lemma is_digit_cases (c : ascii) :
  PyStr.is_digit c = true ->
  c ∈ ["0"; "1"; "2"; "3"; "4"; "5"; "6"; "7"; "8"; "9"]%char.
Proof.
  destruct c as [[|] [|] [|] [|] [|] [|] [|] [|]]; vm_compute;
    intros H; try discriminate H; clear H;
    repeat first [apply list_elem_of_here | apply list_elem_of_further].
Qed.

Lemma is_digit_not_space (c : ascii) :
  PyStr.is_digit c = true -> PyStr.is_space c = false.
Proof.
  intros H%is_digit_cases.
  repeat (apply elem_of_cons in H as [->|H]; [done|]).
  by apply elem_of_nil in H.
Qed.

Lemma is_digit_not_sign (c : ascii) :
  PyStr.is_digit c = true ->
  Ascii.eqb c "-" = false /\ Ascii.eqb c "+" = false /\ Ascii.eqb c "_" = false.
Proof.
  intros H%is_digit_cases.
  repeat (apply elem_of_cons in H as [->|H]; [done|]).
  by apply elem_of_nil in H.
Qed.

Lemma rstrip_digits (s : string) :
  PyStr.all_digits s = true -> PyStr.rstrip s = s.
Proof.
  induction s as [|c s IH]; simpl; [done|].
  intros [Hc Hs]%andb_true_iff. rewrite IH by done.
  destruct s; [|done]. by rewrite is_digit_not_space.
Qed.

Lemma strip_digits (s : string) :
  PyStr.all_digits s = true -> PyStr.strip s = s.
Proof.
  intros H. unfold PyStr.strip.
  assert (PyStr.lstrip s = s) as ->; [|by apply rstrip_digits].
  destruct s as [|c s]; simpl in *; [done|].
  apply andb_true_iff in H as [Hc _]. by rewrite is_digit_not_space.
Qed.

Lemma drop_underscores_digits (s : string) (after_digit : bool) :
  PyStr.all_digits s = true -> PyStr.drop_underscores after_digit s = Some s.
Proof.
  revert after_digit; induction s as [|c s IH]; intros a; simpl; [done|].
  intros [Hc Hs]%andb_true_iff.
  destruct (is_digit_not_sign c Hc) as (_ & _ & ->).
  by rewrite IH.
Qed.

Lemma uint_of_string_digits (s : string) :
  PyStr.all_digits s = true ->
  is_Some (DecimalString.NilEmpty.uint_of_string s).
Proof.
  induction s as [|c s IH]; simpl; [eauto|].
  intros [Hc Hs]%andb_true_iff. destruct (IH Hs) as [d ->].
  apply is_digit_cases in Hc.
  repeat (apply elem_of_cons in Hc as [->|Hc]; [simpl; eauto|]).
  by apply elem_of_nil in Hc.
Qed.

Lemma to_int_of_digits (s : string) :
  PyStr.isdigit s = true -> PyStr.to_int s = PyStr.of_digits s.
Proof.
  intros H. destruct s as [|c s]; [done|]. simpl in H.
  unfold PyStr.to_int. rewrite strip_digits by done.
  pose proof H as [Hc Hs]%andb_true_iff.
  destruct (is_digit_not_sign c Hc) as (-> & -> & _).
  by rewrite drop_underscores_digits.
Qed.

(** [int] reads a string of digits as a number that is not negative. *)
Lemma to_int_digits (s : string) :
  PyStr.isdigit s = true -> exists n, PyStr.to_int s = Some n /\ 0 <= n.
Proof.
  intros H. rewrite to_int_of_digits by done.
  destruct s as [|c s]; [done|].
  unfold PyStr.of_digits, DecimalString.NilZero.uint_of_string.
  destruct (uint_of_string_digits (String c s)) as [d ->]; [done|].
  simpl. eexists; split; [done|]. unfold Z.of_uint. lia.
Qed.

Lemma all_digits_string_of_uint (d : Decimal.uint) :
  PyStr.all_digits (DecimalString.NilEmpty.string_of_uint d) = true.
Proof. induction d; simpl; auto. Qed.

(** The text of a number that is not negative: digits, read back as the
    number. *)
Lemma of_int_nonneg (n : Z) :
  0 <= n ->
  PyStr.isdigit (PyStr.of_int n) = true /\ PyStr.to_int (PyStr.of_int n) = Some n.
Proof.
  intros Hn. unfold PyStr.of_int.
  assert (exists d, Z.to_int n = Decimal.Pos d /\ d <> Decimal.Nil) as (d & Hd & Hnil).
  { destruct n as [|p|p]; [| |lia]; simpl; eexists; split; try done.
    apply DecimalPos.Unsigned.to_uint_nonnil. }
  pose proof (DecimalZ.of_to n) as Hof. rewrite Hd in *. simpl in Hof.
  assert (DecimalString.NilZero.string_of_uint d
          = DecimalString.NilEmpty.string_of_uint d) as Hs by (by destruct d).
  simpl. rewrite Hs.
  assert (PyStr.isdigit (DecimalString.NilEmpty.string_of_uint d) = true) as Hdig.
  { pose proof (all_digits_string_of_uint d) as Ha.
    destruct d; try done; simpl in *; done. }
  split; [done|].
  rewrite to_int_of_digits by done. unfold PyStr.of_digits.
  rewrite <- Hs, DecimalString.NilZero.usu by done. simpl. by rewrite Hof.
Qed.

End decimal_facts.

(** ** Group assignment *)

Section group_facts.
Import GroupAssigner.


Lemma sub_id_number_set (b : balise) (n : Z) :
  0 <= n ->
  sub_id_number (set_item "sub_id" (VStr (PyStr.of_int n)) b) = Some n.
Proof.
  intros Hn. destruct (of_int_nonneg n Hn) as [Hd Hi].
  unfold sub_id_number, get_stripped, set_item. simpl.
  rewrite lookup_insert_eq. simpl.
  assert (PyStr.strip (PyStr.of_int n) = PyStr.of_int n) as ->.
  { apply strip_digits. by destruct (PyStr.of_int n). }
  by rewrite Hd.
Qed.

(** *** Step 1: the ids in use *)




(** *** The smallest free id *)

Lemma first_free_ge (fuel : nat) (U : gset Z) (n : Z) :
  n <= first_free fuel U n.
Proof.
  revert n; induction fuel as [|fuel IH]; intros n; simpl; [lia|].
  case_decide; [|lia]. specialize (IH (n + 1)). lia.
Qed.

Lemma first_free_fuel (fuel : nat) (U : gset Z) (n : Z) :
  (size (filter (fun x : Z => (n <= x)%Z) U) < fuel)%nat ->
  first_free fuel U n ∉ U.
Proof.
  revert n; induction fuel as [|fuel IH]; intros n Hsz; [lia|]. simpl.
  case_decide as Hin; [|done]. apply IH.
  assert (filter (fun x : Z => (n + 1 <= x)%Z) U ⊂ filter (fun x : Z => (n <= x)%Z) U) as Hsub.
  { split.
    - intros x. rewrite !elem_of_filter. intros [??]. split; [lia|done].
    - intros Hc. specialize (Hc n). rewrite !elem_of_filter in Hc.
      destruct Hc as [? _]; [split; [lia|done] | lia]. }
  apply subset_size in Hsub. lia.
Qed.

(** Every id the loop stepped over is in use: the result is the
    smallest free id from [n] on. *)
Lemma first_free_least (fuel : nat) (U : gset Z) (n m : Z) :
  n <= m < first_free fuel U n -> m ∈ U.
Proof.
  revert n; induction fuel as [|fuel IH]; intros n; simpl; [lia|].
  case_decide as Hin; [|lia]. intros Hm.
  destruct (decide (m = n)) as [->|]; [done|]. apply (IH (n + 1)). lia.
Qed.

(** The fuel given by [fill_step] is enough: the loop ends on a free id. *)
Lemma first_free_not_used (U : gset Z) (n : Z) :
  first_free (S (size U)) U n ∉ U.
Proof.
  apply first_free_fuel.
  assert (filter (fun x : Z => (n <= x)%Z) U ⊆ U) as H%subseteq_size; [|lia].
  intros x. rewrite elem_of_filter. tauto.
Qed.

(** *** Step 2: the missing ids *)






(** *** Step 3 and the whole group *)



(** A group is processed without a change outside of it. *)
Lemma fill_fold_frame (l : list nat) (st : list balise * gset Z * Z) :
  length (fold_left fill_step l st).1.1 = length st.1.1
  /\ forall j, j ∉ l -> (fold_left fill_step l st).1.1 !! j = st.1.1 !! j.
Proof.
  revert st. induction l as [|i l IH]; intros st; simpl; [done|].
  destruct (IH (fill_step st i)) as [Hlen Hout].
  assert (length (fill_step st i).1.1 = length st.1.1
          /\ forall j, j <> i -> (fill_step st i).1.1 !! j = st.1.1 !! j)
    as [Hlen1 Hout1].
  { destruct st as [[bs U] next]. unfold fill_step.
    destruct (bs !! i); [|done]. case_match; [|done]. simpl.
    rewrite length_insert. split; [done|].
    intros j Hj. by rewrite list_lookup_insert_ne. }
  split; [congruence|]. intros j [Hji Hjl]%not_elem_of_cons.
  rewrite Hout, Hout1; auto.
Qed.



(** *** The first loop: the groups *)

Lemma groups_append_map (g : list (string * list nat)) (F : string) (i : nat) :
  (list_to_map (groups_append g F i) : gmap string (list nat))
  = <[F := (default [] ((list_to_map g : gmap string (list nat)) !! F)
            ++ [i])%list]> (list_to_map g).
Proof.
  induction g as [|[k grp] g IH]; simpl; [done|].
  case_decide as Hk; simpl.
  - subst k. by rewrite lookup_insert_eq, insert_insert_eq.
  - rewrite IH, lookup_insert_ne by done. by apply insert_insert_ne.
Qed.

Lemma groups_append_keys (g : list (string * list nat)) (F : string) (i : nat)
    (k : string) :
  k ∈ (groups_append g F i).*1 -> k = F \/ k ∈ g.*1.
Proof.
  induction g as [|[k' grp] g IH]; simpl.
  - intros ->%list_elem_of_singleton. by left.
  - case_decide; simpl; rewrite !elem_of_cons; [tauto|].
    intros [->|H']; [tauto|]. destruct (IH H'); tauto.
Qed.

Lemma groups_append_NoDup (g : list (string * list nat)) (F : string) (i : nat) :
  NoDup g.*1 -> NoDup (groups_append g F i).*1.
Proof.
  induction g as [|[k grp] g IH]; simpl.
  - intros _. apply NoDup_singleton.
  - rewrite NoDup_cons. intros [Hk Hnd]. case_decide as Hkf; simpl.
    + by apply NoDup_cons.
    + apply NoDup_cons. split; [|by apply IH].
      intros [?|?]%groups_append_keys; [congruence|done].
Qed.

Lemma group_fold_spec (single : balise -> balise) (bs0 : list balise) (k : nat) :
  (k <= length bs0)%nat ->
  let st := fold_left (group_step single) (seq 0 k) (bs0, []) in
  length st.1 = length bs0
  /\ (forall i, (k <= i)%nat -> st.1 !! i = bs0 !! i)
  /\ (forall i b, bs0 !! i = Some b -> father_of b <> "" -> st.1 !! i = Some b)
  /\ NoDup st.2.*1
  /\ (forall F idxs,
        (list_to_map st.2 : gmap string (list nat)) !! F = Some idxs ->
        F <> "" /\ forall i, i ∈ idxs <->
                    (i < k)%nat /\ father_of <$> bs0 !! i = Some F)
  /\ (forall i b, (i < k)%nat -> bs0 !! i = Some b -> father_of b <> "" ->
        is_Some ((list_to_map st.2 : gmap string (list nat)) !! father_of b)).
Proof.
  induction k as [|k IH]; intros Hk; cbv zeta.
  { simpl. split_and!; auto; try apply NoDup_nil_2.
    - intros F idxs H. by rewrite lookup_empty in H.
    - intros; lia. }
  rewrite seq_S, fold_left_app. simpl.
  destruct IH as (Hlen & Hrest & Hmem & Hnd & Hgrp & Hex); [lia|].
  destruct (fold_left (group_step single) (seq 0 k) (bs0, [])) as [bs gs].
  simpl in *. unfold group_step. simpl.
  rewrite Hrest by lia.
  destruct (bs0 !! k) as [b|] eqn:Hb.
  2: { apply lookup_ge_None in Hb. lia. }
  destruct (String.eqb (get_stripped b "father_balise") "") eqn:Hf; simpl.
  - (* no father: the record is updated *)
    apply String.eqb_eq in Hf.
    split_and!.
    + by rewrite length_insert.
    + intros i Hi. rewrite list_lookup_insert_ne by lia. apply Hrest. lia.
    + intros i b' Hb' Hne. rewrite list_lookup_insert_ne; [by apply Hmem|].
      intros <-. rewrite Hb in Hb'. injection Hb' as <-. by apply Hne.
    + done.
    + intros F idxs HF. destruct (Hgrp F idxs HF) as [HFne Hiff].
      split; [done|]. intros i. rewrite Hiff. split; [intros [??]; split; [lia|done]|].
      intros [Hi Hfi]. split; [|done].
      destruct (decide (i = k)) as [->|]; [|lia].
      rewrite Hb in Hfi. simpl in Hfi. unfold father_of in Hfi. congruence.
    + intros i b' Hi Hb' Hne. apply (Hex i); auto.
      destruct (decide (i = k)) as [->|]; [|lia].
      rewrite Hb in Hb'. injection Hb' as <-. by destruct Hne.
  - (* a father: the index joins its group *)
    apply String.eqb_neq in Hf.
    rewrite groups_append_map.
    set (Fk := get_stripped b "father_balise") in *.
    split_and!.
    + done.
    + intros i Hi. apply Hrest. lia.
    + done.
    + by apply groups_append_NoDup.
    + intros F idxs HF.
      destruct (decide (Fk = F)) as [<-|Hne].
      * rewrite lookup_insert_eq in HF. injection HF as <-.
        split; [done|]. intros i.
        rewrite elem_of_app, list_elem_of_singleton.
        assert (forall j,
                  j ∈ default [] ((list_to_map gs : gmap string (list nat)) !! Fk) <->
                  (j < k)%nat /\ father_of <$> bs0 !! j = Some Fk) as Hold.
        { intros j.
          destruct ((list_to_map gs : gmap string (list nat)) !! Fk)
            as [l|] eqn:El; simpl.
          - by apply Hgrp in El as [_ El].
          - split; [by intros ?%elem_of_nil|]. intros [Hj Hfj].
            destruct (bs0 !! j) as [bj|] eqn:Hbj; [|done].
            simpl in Hfj. injection Hfj as Hfj.
            destruct (Hex j bj) as [l Hl]; auto; [congruence|].
            rewrite Hfj in Hl. congruence. }
        rewrite Hold. split.
        -- intros [[??]| ->]; [split; [lia|done]|]. split; [lia|].
           by rewrite Hb.
        -- intros [Hi Hfi]. destruct (decide (i = k)); [by right|left].
           split; [lia|done].
      * rewrite lookup_insert_ne in HF by done.
        destruct (Hgrp F idxs HF) as [HFne Hiff]. split; [done|].
        intros i. rewrite Hiff. split; [intros [??]; split; [lia|done]|].
        intros [Hi Hfi]. split; [|done].
        destruct (decide (i = k)) as [->|]; [|lia].
        rewrite Hb in Hfi. simpl in Hfi. destruct Hne. by injection Hfi.
    + intros i b' Hi Hb' Hne.
      destruct (decide (Fk = father_of b')) as [He|Hne'].
      * rewrite <- He, lookup_insert_eq. eauto.
      * rewrite lookup_insert_ne by done. apply (Hex i); auto.
        destruct (decide (i = k)) as [->|]; [|lia].
        rewrite Hb in Hb'. injection Hb' as <-. by destruct Hne'.
Qed.

(** *** Lists of ids *)



(** *** The two loops together *)

Lemma member_indices_spec (roster : list balise) (F : string) (i : nat) :
  i ∈ member_indices roster F <-> father_of <$> roster !! i = Some F.
Proof.
  unfold member_indices. rewrite list_elem_of_filter, elem_of_seq.
  split; [tauto|]. intros H. split; [done|].
  destruct (roster !! i) eqn:E; [|done]. apply lookup_lt_Some in E. lia.
Qed.


End group_facts.

Section assignment_facts.
Import GroupAssigner.

Lemma get_stripped_set_ne (k k' : string) (v : pyval) (b : balise) :
  k <> k' -> get_stripped (set_item k v b) k' = get_stripped b k'.
Proof. intros H. unfold get_stripped, set_item. simpl. by rewrite lookup_insert_ne. Qed.

Lemma ConfigManager_finish_sub_id (c : nat) (b : balise) :
  sub_id_number (ConfigManager.finish c b) = sub_id_number b.
Proof.
  unfold sub_id_number, ConfigManager.finish.
  by rewrite !get_stripped_set_ne by done.
Qed.

Lemma SimulationWidget_finish_sub_id (c : nat) (b : balise) :
  sub_id_number (SimulationWidget.finish c b) = sub_id_number b.
Proof.
  unfold sub_id_number, SimulationWidget.finish.
  by rewrite !get_stripped_set_ne by done.
Qed.

End assignment_facts.




(** C7: on the roster with one member of sub_id 8 the code writes the
    [n_pig] ["1000"], four characters, where the specification asks for the three
    characters of [8 mod 8]. *)
Lemma n_pig_of_sub_id_8 :
  (fun b => (b_items b !! "sub_id", b_items b !! "n_pig"))
    <$> ConfigManager.process_balise_groups roster_id_8
  = [ (Some (VStr "8"), Some (VStr "1000")) ]
  /\ PyStr.format_0b (8 mod 8) 3 = "000".
Proof. split; vm_compute; reflexivity. Qed.

(** C8: on the roster A, B, C one group is formed, of the positions of B
    and C; C keeps the sub_id 0, B gets 1, both get [n_total] 2 and
    [q_link] 1; A gets sub_id 0, [n_total] 1 and [q_link] 0. *)
Theorem roster_ABC_assignment :
  (GroupAssigner.group_balises ConfigManager.single roster_ABC).2
  = [ ("A", [1; 2]%nat) ]
  /\ ConfigManager.process_balise_groups roster_ABC
     = [ Balise (Some "A") None
           {[ "father_balise" := VStr ""; "sub_id" := VStr "0";
              "n_pig" := VStr "000"; "n_total" := VStr "1";
              "q_link" := VStr "0" ]};
         Balise (Some "B") None
           {[ "father_balise" := VStr "A"; "sub_id" := VStr "1";
              "n_pig" := VStr "001"; "n_total" := VStr "2";
              "q_link" := VStr "1" ]};
         Balise (Some "C") None
           {[ "father_balise" := VStr "A"; "sub_id" := VStr "0";
              "n_pig" := VStr "000"; "n_total" := VStr "2";
              "q_link" := VStr "1" ]} ].
Proof. split; vm_compute; reflexivity. Qed.

(** ** Signal authorization *)

Section authorization_facts.
Import SimulationWidget.




End authorization_facts.



(** ** Passing a balise *)

Section pass_facts.
Import SimulationWidget.

Lemma Qlt_bool_true (x y : Q) : Qlt_bool x y = true <-> (x < y)%Q.
Proof.
  unfold Qlt_bool. rewrite negb_true_iff, <- not_true_iff_false, Qle_bool_iff.
  split; [apply Qnot_le_lt | apply Qlt_not_le].
Qed.

Lemma Qlt_bool_false (x y : Q) : Qlt_bool x y = false <-> (y <= x)%Q.
Proof. unfold Qlt_bool. by rewrite negb_false_iff, Qle_bool_iff. Qed.


(** A text of at most eight characters holds no V_STATIC. *)
Lemma decode_ETCS_27_short (s : string) (d : gmap string Z) :
  (String.length s <= 8)%nat ->
  decode_packet "ETCS-27" s = Some (Fields d) -> d !! "V_STATIC" = None.
Proof.
  intros H. rewrite (decode_packet_known "ETCS-27" ETCS_27) by done.
  unfold ETCS_27. cbn [decode_fields present cond fixed fld negb len name].
  destruct (String.length s <? 0 + 8)%nat; [by intros [= <-]|].
  destruct (PacketUtils.bin_to_int _) as [v0|]; [|done].
  replace (String.length s <? 0 + 8 + 2)%nat with true
    by (symmetry; apply Nat.ltb_lt; lia).
  by intros [= <-].
Qed.

Lemma telegram_long (s : string) :
  (8 < String.length s)%nat -> telegram (Some (VStr s)) = Some s.
Proof. intros H. unfold telegram. by apply Nat.ltb_lt in H as ->. Qed.


Lemma handle_balise_pass_effective (py_float : pyval -> option Q) (w : widget)
    (now : time) (t : train) (b : balise) (index : Z) (eff : balise) :
  effective_balise_of w now b index = Some eff ->
  handle_balise_pass py_float w now t b index
  = let '(t1, log5) :=
      match b_items eff !! "CTCS-5" with
      | Some _ => (absolute_stop t, true)
      | None => (t, false)
      end in
    let '(t2, log2) := apply_ctcs2 (default 0%Q (b_location b)) eff t1 in
    let '(t3, log27) := apply_etcs27 w eff t2 in
    Some (if log5 || log2 || log27 then t3
          else apply_speed_limit py_float eff t3).
Proof. intros H. unfold handle_balise_pass. rewrite H. reflexivity. Qed.

End pass_facts.

(** ** Floats *)

Section float_facts.

Lemma Qle_bool_ext (a x y : Q) : (x == y)%Q -> Qle_bool a x = Qle_bool a y.
Proof.
  intros H. destruct (Qle_bool a y) eqn:E.
  - apply Qle_bool_iff. apply Qle_bool_iff in E. by rewrite H.
  - destruct (Qle_bool a x) eqn:E'; [|done].
    apply Qle_bool_iff in E'. rewrite H in E'. apply Qle_bool_iff in E'.
    congruence.
Qed.

Lemma Qeq_bool_0_ext (x y : Q) : (x == y)%Q -> Qeq_bool x 0 = Qeq_bool y 0.
Proof.
  intros H. destruct (Qeq_bool y 0) eqn:E.
  - apply Qeq_bool_iff. apply Qeq_bool_iff in E. by rewrite H.
  - destruct (Qeq_bool x 0) eqn:E'; [|done].
    apply Qeq_bool_iff in E'. rewrite H in E'. apply Qeq_bool_iff in E'.
    congruence.
Qed.

Lemma ilog2_ext (x y : Q) : (x == y)%Q -> PyFloat.ilog2 x = PyFloat.ilog2 y.
Proof.
  intros H. unfold PyFloat.ilog2. cbv zeta.
  assert (Qabs x == Qabs y)%Q as Ha by (by rewrite H).
  rewrite (Qle_bool_ext 1 _ _ Ha), (Qfloor_comp _ _ Ha).
  assert (/ Qabs x == / Qabs y)%Q as Hi by (by rewrite Ha).
  by rewrite (Qceiling_comp _ _ Hi).
Qed.

Lemma round_half_even_ext (x y : Q) :
  (x == y)%Q -> PyFloat.round_half_even x = PyFloat.round_half_even y.
Proof.
  intros H. unfold PyFloat.round_half_even. cbv zeta.
  rewrite (Qfloor_comp _ _ H).
  assert (x - inject_Z (Qfloor y) == y - inject_Z (Qfloor y))%Q as Hr
    by (by rewrite H).
  by rewrite (Qcompare_comp _ _ Hr (1 # 2) (1 # 2) (Qeq_refl _)).
Qed.

(** Rounding depends on the number, not on the fraction it is written
    as. *)
Lemma round_ext (x y : Q) : (x == y)%Q -> PyFloat.round x = PyFloat.round y.
Proof.
  intros H. unfold PyFloat.round, PyFloat.ulp_exp. cbv zeta.
  rewrite (Qeq_bool_0_ext _ _ H), (ilog2_ext _ _ H).
  destruct (Qeq_bool y 0); [done|].
  set (e := Z.max (-1074) (PyFloat.ilog2 y - 52)).
  assert (x / PyFloat.pow2 e == y / PyFloat.pow2 e)%Q as Hd by (by rewrite H).
  by rewrite (round_half_even_ext _ _ Hd).
Qed.

Lemma is_float_round (x : Q) :
  PyFloat.is_float x = true -> (PyFloat.round x == x)%Q.
Proof.
  unfold PyFloat.is_float. intros [H _]%andb_true_iff.
  by apply Qeq_bool_iff.
Qed.

(** Adding the float 0 to a float gives the float. *)
Lemma add_0_r (x : Q) :
  PyFloat.is_float x = true -> (PyFloat.add x 0 == x)%Q.
Proof.
  intros H. unfold PyFloat.add.
  rewrite (round_ext (x + 0) x) by apply Qplus_0_r.
  by apply is_float_round.
Qed.

End float_facts.




(** C6: when a train passes a balise whose effective ETCS-27 telegram
    decodes with a V_STATIC, the base speed of the train becomes the
    maximum speed of the line (350 when none is configured) if V_STATIC is
    127, and V_STATIC times 5 otherwise, whatever D_STATIC is. *)
Theorem etcs27_sets_base_speed (py_float : pyval -> option Q)
    (w : SimulationWidget.widget) (now : SimulationWidget.time)
    (t : SimulationWidget.train) (b : balise) (index : Z) (eff : balise)
    (s : string) (d : gmap string Z) (v : Z) :
  SimulationWidget.effective_balise_of w now b index = Some eff ->
  b_items eff !! "ETCS-27" = Some (VStr s) ->
  decode_packet "ETCS-27" s = Some (Fields d) ->
  d !! "V_STATIC" = Some v ->
  exists t',
    SimulationWidget.handle_balise_pass py_float w now t b index = Some t'
    /\ SimulationWidget.base_speed t'
       = Some (if v =? 127 then default 350%Q (SimulationWidget.max_speed w)
               else inject_Z (v * 5)).
Proof.
  intros Heff Htg Hdec HV.
  assert (8 < String.length s)%nat as Hlong.
  { destruct (Nat.le_gt_cases (String.length s) 8) as [Hle|]; [|done].
    rewrite (decode_ETCS_27_short s d Hle Hdec) in HV. done. }
  rewrite (handle_balise_pass_effective _ _ _ _ _ _ eff Heff).
  destruct (match b_items eff !! "CTCS-5" with
            | Some _ => (SimulationWidget.absolute_stop t, true)
            | None => (t, false)
            end) as [t1 log5].
  destruct (SimulationWidget.apply_ctcs2 _ eff t1) as [t2 log2].
  unfold SimulationWidget.apply_etcs27.
  rewrite Htg, telegram_long, Hdec by done.
  cbn [SimulationWidget.fields_of]. rewrite HV. cbn [default from_option id].
  destruct (v =? 127).
  - rewrite !orb_true_r. eauto.
  - destruct (default 0 (d !! "D_STATIC") =? 0); rewrite !orb_true_r; eauto.
Qed.

Lemma etcs27_sets_base_speed_witness :
  exists t',
    SimulationWidget.handle_balise_pass Fixtures.no_float Fixtures.tsr_widget 0
      Fixtures.far_train Fixtures.tsr_balise 0 = Some t'
    /\ SimulationWidget.base_speed t'
       = Some (if 40 =? 127
               then default 350%Q (SimulationWidget.max_speed Fixtures.tsr_widget)
               else inject_Z (40 * 5)).
Proof.
  apply (etcs27_sets_base_speed Fixtures.no_float Fixtures.tsr_widget 0
           Fixtures.far_train Fixtures.tsr_balise 0 Fixtures.tsr_balise
           (encode_packet "ETCS-27" {[ "V_STATIC" := 40 ]})
           (SimulationWidget.fields_of
              (default (Raw "")
                 (decode_packet "ETCS-27"
                    (encode_packet "ETCS-27" {[ "V_STATIC" := 40 ]})))));
    vm_compute; reflexivity.
Defined.

(** * Further properties *)

(** ** Field codec *)

Section field_codec_extra.

Lemma bin_to_int_Some_bits (s : string) (n : Z) :
PacketUtils.bin_to_int s = Some n ->
PyStr.is_bits s = true /\ n = msb_first_value s.
Proof.
assert (forall s acc v, PyStr.int_base2_from acc s = Some v ->
          PyStr.is_bits s = true) as Hb.
{ clear. induction s as [|c s IH]; simpl; [done|]. intros acc v.
  destruct (PyStr.bit_of_ascii c) eqn:E; [|done].
  intros ->%IH. rewrite andb_true_r. apply bool_decide_eq_true. eauto. }
destruct s as [|c s]; [by intros [= <-]|].
unfold PacketUtils.bin_to_int, PyStr.int_base2. intros H.
pose proof (Hb _ _ _ H) as Hbits. split; [done|].
rewrite int_base2_from_bits in H by done. injection H as <-.
by rewrite Z.mul_0_l.
Qed.

End field_codec_extra.

(** X1: reading back a field written with a positive width gives the value
    modulo [2^bits], for every value that is not negative. *)
Theorem bin_to_int_int_to_bin (v : Z) (b : nat) :
  0 <= v -> (0 < b)%nat ->
  PacketUtils.bin_to_int (PacketUtils.int_to_bin v b) = Some (v mod 2 ^ Z.of_nat b).
Proof.
  intros Hv Hb. destruct (int_to_bin_nonneg v b Hv Hb) as [Hbits Hval].
  by rewrite bin_to_int_bits, Hval.
Qed.

Lemma bin_to_int_int_to_bin_witness :
  PacketUtils.bin_to_int (PacketUtils.int_to_bin 300 8) = Some (300 mod 2 ^ Z.of_nat 8).
Proof. apply (bin_to_int_int_to_bin 300 8); lia. Defined.

(** X2: writing the number read from a text over 0 and 1 that is not
    empty, with the width of the text, gives the text back.  Of the texts
    [int(s, 2)] reads, those over 0 and 1 are the ones written back as they
    are: a blank, a sign, a prefix or an underscore is not. *)
Theorem int_to_bin_bin_to_int (s : string) (n : Z) :
  s <> "" ->
  PyStr.is_bits s = true ->
  PacketUtils.bin_to_int s = Some n ->
  PacketUtils.int_to_bin n (String.length s) = s.
Proof.
  intros Hs Hbits Hn. pose proof (bin_to_int_Some s n Hn) as Hbound.
  rewrite bin_to_int_bits in Hn by done. injection Hn as <-.
  assert (0 < String.length s)%nat as Hlen by (destruct s; [done|simpl; lia]).
  destruct (int_to_bin_fits (msb_first_value s) (String.length s) Hlen Hbound)
    as (Hb & Hv & Hl).
  by apply msb_first_value_inj.
Qed.

Lemma int_to_bin_bin_to_int_witness :
  PacketUtils.int_to_bin 5 (String.length "00101") = "00101".
Proof. apply (int_to_bin_bin_to_int "00101" 5); [discriminate | reflexivity..]. Defined.

(** X3: for every integer, negative ones too, and every positive width the
    written text has exactly that many characters. *)
Theorem int_to_bin_width (v : Z) (b : nat) :
  (0 < b)%nat -> String.length (PacketUtils.int_to_bin v b) = b.
Proof. apply length_int_to_bin. Qed.

Lemma int_to_bin_width_witness :
  String.length (PacketUtils.int_to_bin (-100) 3) = 3%nat.
Proof. apply (int_to_bin_width (-100) 3). lia. Defined.

(** ** Telegrams *)

Section telegram_extra.

Lemma PACKET_DEFS_fixed_nonneg (P : string) (defs : list field) (f : field) (v : Z) :
PACKET_DEFS !! P = Some defs -> f ∈ defs -> val f = Some v -> 0 <= v.
Proof.
intros H Hf. packet_cases H;
  repeat (apply elem_of_cons in Hf as [->|Hf];
          [simpl; intros [= <-]; lia || discriminate|]);
  by apply elem_of_nil in Hf.
Qed.

Lemma length_encode_fields (data : gmap string Z) (defs : list field) :
(forall f, f ∈ defs -> (0 < len f)%nat) ->
String.length (encode_fields data defs) = encoded_width data defs.
Proof.
unfold encoded_width.
induction defs as [|f defs IH]; intros Hpos; [done|].
cbn [encode_fields List.filter]. unfold encode_step.
rewrite length_app, IH by (intros g Hg; apply Hpos; by right).
destruct (present f data); [|done].
rewrite app_nil_l, length_int_to_bin by (apply Hpos; left).
by rewrite fmap_cons.
Qed.

Lemma is_bits_encode_fields (data : gmap string Z) (defs : list field) :
(forall f, f ∈ defs -> (0 < len f)%nat /\ 0 <= written data f) ->
PyStr.is_bits (encode_fields data defs) = true.
Proof.
induction defs as [|f defs IH]; intros Hok; [done|].
cbn [encode_fields]. unfold encode_step.
rewrite is_bits_app, IH by (intros g Hg; apply Hok; by right).
destruct (present f data); [|done].
destruct (Hok f) as [Hl Hw]; [left|].
rewrite app_nil_l. by destruct (int_to_bin_nonneg _ _ Hw Hl) as [-> _].
Qed.

End telegram_extra.

(** X4: the telegram of a known packet has as many characters as the
    widths of the fields present under the input add up to, whatever the
    values of the input are. *)
Theorem encode_packet_length (P : string) (defs : list field) (V : gmap string Z) :
  PACKET_DEFS !! P = Some defs ->
  String.length (encode_packet P V) = encoded_width V defs.
Proof.
  intros HP. rewrite (encode_packet_fields P defs) by done.
  apply length_encode_fields. intros f. by apply PACKET_DEFS_len_pos with P.
Qed.

Lemma encode_packet_length_witness :
  String.length (encode_packet "ETCS-5" {[ "Q_NEWCOUNTRY" := 1; "D_LINK" := -4 ]})
  = encoded_width {[ "Q_NEWCOUNTRY" := 1; "D_LINK" := -4 ]} ETCS_5.
Proof. apply (encode_packet_length "ETCS-5" ETCS_5). reflexivity. Defined.

(** X5: when no value of the input is negative the telegram of a known
    packet is a text over 0 and 1. *)
Theorem encode_packet_is_bits (P : string) (defs : list field) (V : gmap string Z) :
  PACKET_DEFS !! P = Some defs ->
  map_Forall (fun _ v => 0 <= v) V ->
  PyStr.is_bits (encode_packet P V) = true.
Proof.
  intros HP HV. rewrite (encode_packet_fields P defs) by done.
  apply is_bits_encode_fields. intros f Hf. split.
  - by apply PACKET_DEFS_len_pos with P defs.
  - unfold written. destruct (val f) as [v|] eqn:Hv.
    + by apply PACKET_DEFS_fixed_nonneg with P defs f.
    + destruct (V !! name f) as [v|] eqn:E; simpl; [|lia]. by apply (HV _ _ E).
Qed.

Lemma encode_packet_is_bits_witness :
  PyStr.is_bits (encode_packet "CTCS-2" {[ "V_TSR" := 900 ]}) = true.
Proof.
  apply (encode_packet_is_bits "CTCS-2" CTCS_2); [reflexivity|].
  apply map_Forall_singleton. lia.
Defined.

(** The written value of every field of the definition that is present
    under the input is found in the decoded mapping. *)
Ltac roundtrip_lookup_written :=
  let f := fresh "f" in
  let Hf := fresh "Hf" in let Hpres := fresh "Hpres" in
  intros f Hf Hpres;
  repeat (apply elem_of_cons in Hf as [->|Hf]);
  [..|by apply elem_of_nil in Hf];
  cbn [name cond fld fixed when present] in Hpres |- *;
  try discriminate Hpres;
  first
  [ by (rewrite ?lookup_insert_ne by done; rewrite lookup_insert_eq)
  | by (exfalso; unfold get_eq in Hpres; apply bool_decide_eq_true in Hpres;
        congruence) ].

Ltac roundtrip_written Hfit :=
  eexists; split;
  [repeat (roundtrip_step Hfit); reflexivity | roundtrip_lookup_written].

Ltac roundtrip_written_on V k Hfit :=
  let q := fresh "q" in let E := fresh "E" in
  destruct (V !! k) as [q|] eqn:E;
  [ destruct (decide (q = 0)) as [->|?];
    [|destruct (decide (q = 1)) as [->|?]] | ];
  roundtrip_written Hfit.

(** X6: for every known packet and every input whose values fit the
    declared widths, decoding the telegram gives, for every field present
    under the input, the value the encoder wrote: the fixed value of the
    field whatever the input says, else the value of the input, else 0. *)
Theorem decode_encode_written (P : string) (defs : list field)
    (V : gmap string Z) :
  PACKET_DEFS !! P = Some defs ->
  fits_widths defs V = true ->
  exists result,
    decode_packet P (encode_packet P V) = Some (Fields result)
    /\ forall f, f ∈ defs -> present f V = true ->
         result !! name f = Some (written V f).
Proof.
  intros HP Hfit.
  rewrite (decode_packet_known P defs), (encode_packet_fields P defs) by done.
  enough (exists R, decode_fields defs (encode_fields V defs) ∅ 0 = Some R
            /\ forall f, f ∈ defs -> present f V = true ->
                 R !! name f = Some (written V f))
    as (R & -> & HR) by eauto.
  packet_cases HP.
  - unfold ETCS_5 in *. roundtrip_written_on V "Q_NEWCOUNTRY" Hfit.
  - unfold CTCS_1 in *. roundtrip_written Hfit.
  - unfold ETCS_21 in *. roundtrip_written Hfit.
  - unfold ETCS_27 in *. roundtrip_written Hfit.
  - unfold ETCS_41 in *. roundtrip_written_on V "M_LEVELTR" Hfit.
  - unfold CTCS_2 in *. roundtrip_written Hfit.
  - unfold CTCS_4 in *. roundtrip_written Hfit.
  - unfold CTCS_5 in *. roundtrip_written Hfit.
  - unfold ETCS_68 in *. roundtrip_written_on V "Q_TRACKINIT" Hfit.
  - unfold ETCS_79 in *. roundtrip_written_on V "Q_NEWCOUNTRY" Hfit.
Qed.

Lemma decode_encode_written_witness :
  exists result,
    decode_packet "ETCS-27"
      (encode_packet "ETCS-27" {[ "NID_PACKET" := 99; "V_STATIC" := 40 ]})
    = Some (Fields result)
    /\ forall f, f ∈ ETCS_27 ->
         present f ({[ "NID_PACKET" := 99; "V_STATIC" := 40 ]} : gmap string Z)
         = true ->
         result !! name f
         = Some (written {[ "NID_PACKET" := 99; "V_STATIC" := 40 ]} f).
Proof.
  apply (decode_encode_written "ETCS-27" ETCS_27
           {[ "NID_PACKET" := 99; "V_STATIC" := 40 ]}); reflexivity.
Defined.

Section prefix_extra.

Lemma take_app_le (s t : string) (n : nat) :
(n <= String.length s)%nat -> PyStr.take n (s ++ t) = PyStr.take n s.
Proof.
revert s. induction n as [|n IH]; intros s Hn.
- by destruct s, t.
- destruct s as [|c s]; simpl in Hn; [lia|].
  rewrite app_cons. simpl. rewrite IH; [done|lia].
Qed.

Lemma drop_app_le (s t : string) (n : nat) :
(n <= String.length s)%nat -> PyStr.drop n (s ++ t) = PyStr.drop n s ++ t.
Proof.
revert s. induction n as [|n IH]; intros s Hn; [done|].
destruct s as [|c s]; simpl in Hn; [lia|].
rewrite app_cons. simpl. apply IH. lia.
Qed.

Lemma slice_app_l (s t : string) (lo hi : nat) :
(hi <= String.length s)%nat ->
PyStr.slice lo hi (s ++ t) = PyStr.slice lo hi s.
Proof.
intros Hhi. unfold PyStr.slice.
destruct (Nat.le_gt_cases lo hi) as [Hle|Hgt].
- rewrite drop_app_le, take_app_le; [done| |lia]. rewrite length_drop. lia.
- replace (hi - lo)%nat with 0%nat by lia.
  by destruct (PyStr.drop lo (s ++ t)), (PyStr.drop lo s).
Qed.

(** The loop adds fields and changes none, the names being distinct. *)
Lemma decode_fields_mono (defs : list field) (s : string)
  (R R' : gmap string Z) (ptr : nat) :
NoDup (name <$> defs) ->
(forall f, f ∈ defs -> R !! name f = None) ->
decode_fields defs s R ptr = Some R' -> R ⊆ R'.
Proof.
revert R ptr. induction defs as [|f defs IH]; intros R ptr Hnd Hfresh; simpl.
{ by intros [= <-]. }
rewrite fmap_cons in Hnd. apply NoDup_cons in Hnd as [Hf Hnd].
assert (forall g, g ∈ defs -> R !! name g = None) as Hfresh'.
{ intros g Hg. apply Hfresh. by right. }
destruct (negb (present f R)); [by apply IH|].
destruct (_ <? _)%nat; [by intros [= <-]|].
destruct (PacketUtils.bin_to_int _) as [v|]; [|done]. intros H.
etrans; [apply (insert_subseteq R (name f) v), Hfresh; left|].
apply (IH _ _ Hnd) in H; [done|].
intros g Hg. rewrite lookup_insert_ne; [by apply Hfresh'|].
intros Heq. apply Hf. rewrite Heq. by apply list_elem_of_fmap_2.
Qed.

(** The loop on a longer text reads the same fields first. *)
Lemma decode_fields_prefix (defs : list field) (s t : string)
  (R R1 R2 : gmap string Z) (ptr : nat) :
NoDup (name <$> defs) ->
(forall f, f ∈ defs -> R !! name f = None) ->
decode_fields defs s R ptr = Some R1 ->
decode_fields defs (s ++ t) R ptr = Some R2 ->
R1 ⊆ R2.
Proof.
revert R ptr. induction defs as [|f defs IH]; intros R ptr Hnd Hfresh H1 H2.
{ simpl in *. by simplify_eq. }
pose proof (decode_fields_mono _ _ _ _ _ Hnd Hfresh H2) as Hmono.
simpl in H1, H2.
rewrite fmap_cons in Hnd. apply NoDup_cons in Hnd as [Hf Hnd].
assert (forall g, g ∈ defs -> R !! name g = None) as Hfresh'.
{ intros g Hg. apply Hfresh. by right. }
destruct (negb (present f R)); [by eapply IH|].
rewrite length_app in H2.
destruct (String.length s <? ptr + len f)%nat eqn:E1.
{ injection H1 as <-. done. }
apply Nat.ltb_ge in E1.
replace (_ <? _)%nat with false in H2 by (symmetry; apply Nat.ltb_ge; lia).
rewrite slice_app_l in H2 by done.
destruct (PacketUtils.bin_to_int _) as [v|]; [|done].
eapply (IH (<[name f := v]> R) (ptr + len f)%nat Hnd); [|exact H1|exact H2].
intros g Hg. rewrite lookup_insert_ne; [by apply Hfresh'|].
intros Heq. apply Hf. rewrite Heq. by apply list_elem_of_fmap_2.
Qed.

End prefix_extra.

(** X7: for every known packet, what is decoded from the beginning of a
    text is part of what is decoded from the whole text: cutting a telegram
    short loses fields and changes none. *)
Theorem decode_packet_prefix (P : string) (defs : list field) (s t : string)
    (R1 R2 : gmap string Z) :
  PACKET_DEFS !! P = Some defs ->
  decode_packet P s = Some (Fields R1) ->
  decode_packet P (s ++ t) = Some (Fields R2) ->
  R1 ⊆ R2.
Proof.
  intros HP. rewrite !(decode_packet_known P defs) by done.
  destruct (decode_fields defs s ∅ 0) as [r1|] eqn:H1; [|done].
  destruct (decode_fields defs (s ++ t) ∅ 0) as [r2|] eqn:H2; [|done].
  intros [= <-] [= <-].
  eapply (decode_fields_prefix defs s t ∅ r1 r2 0); eauto.
  by apply PACKET_DEFS_names_unique with P.
Qed.

Lemma decode_packet_prefix_witness :
  ({[ "NID_XUSER" := 5 ]} : gmap string Z)
  ⊆ {[ "NID_XUSER" := 5; "Q_DIR" := 1; "Q_STOP" := 1 ]}.
Proof.
  apply (decode_packet_prefix "CTCS-5" CTCS_5 "0000001010" "11");
    reflexivity.
Defined.

(** ** Group assignment, record by record *)

Section group_shape.
Import GroupAssigner.

(** The list of a group is the positions of its records, in the order of
  the roster, and the records without father met so far are updated. *)
Lemma group_fold_members (single : balise -> balise) (bs0 : list balise) (k : nat) :
(k <= length bs0)%nat ->
let st := fold_left (group_step single) (seq 0 k) (bs0, []) in
(forall F idxs,
   (list_to_map st.2 : gmap string (list nat)) !! F = Some idxs ->
   idxs = filter (fun i => father_of <$> bs0 !! i = Some F) (seq 0 k))
/\ (forall i b, (i < k)%nat -> bs0 !! i = Some b -> father_of b = "" ->
      st.1 !! i = Some (single b)).
Proof.
induction k as [|k IH]; intros Hk; cbv zeta.
{ simpl. split; [|intros; lia]. intros F idxs H. by rewrite lookup_empty in H. }
destruct IH as [Hmem Hsingle]; [lia|].
destruct (group_fold_spec single bs0 k) as (Hlen & Hrest & _ & _ & Hgrp & Hex);
  [lia|].
rewrite seq_S, fold_left_app. simpl.
destruct (fold_left (group_step single) (seq 0 k) (bs0, [])) as [bs gs].
simpl in *. unfold group_step. simpl. rewrite Hrest by lia.
destruct (bs0 !! k) as [b|] eqn:Hb.
2: { apply lookup_ge_None in Hb. lia. }
assert (forall F, filter (fun i => father_of <$> bs0 !! i = Some F) [k]
                  = if decide (father_of b = F) then [k] else []) as Hlast.
{ intros F. rewrite filter_cons, filter_nil, Hb. simpl.
  destruct (decide (father_of b = F)) as [->|Hne].
  - by rewrite decide_True.
  - rewrite decide_False; [done|]. congruence. }
destruct (String.eqb (get_stripped b "father_balise") "") eqn:Hf; simpl.
- apply String.eqb_eq in Hf. split.
  + intros F idxs HF. rewrite filter_app, Hlast.
    rewrite decide_False.
    * rewrite app_nil_r. by apply Hmem.
    * apply Hgrp in HF as [HF _]. unfold father_of. congruence.
  + intros i b' Hi Hb' Hfb'. destruct (decide (i = k)) as [->|Hne].
    * rewrite Hb in Hb'. injection Hb' as <-.
      rewrite list_lookup_insert_eq; [done|lia].
    * rewrite list_lookup_insert_ne by done. apply Hsingle; [lia|done..].
- apply String.eqb_neq in Hf. rewrite groups_append_map. split.
  + intros F idxs HF. rewrite filter_app, Hlast. fold (father_of b) in *.
    destruct (decide (father_of b = F)) as [<-|Hne].
    * rewrite lookup_insert_eq in HF. injection HF as <-.
      destruct ((list_to_map gs : gmap string (list nat)) !! father_of b)
        as [l|] eqn:El; simpl.
      -- by rewrite (Hmem _ _ El).
      -- destruct (filter _ (seq 0 k)) as [|x xs] eqn:Efil; [done|].
         assert (x ∈ filter (fun i => father_of <$> bs0 !! i = Some (father_of b))
                   (seq 0 k)) as Hx by (rewrite Efil; left).
         apply list_elem_of_filter in Hx as [Hx Hxk]. apply elem_of_seq in Hxk.
         destruct (bs0 !! x) as [bx|] eqn:Hbx; [|done].
         simpl in Hx. injection Hx as Hx.
         destruct (Hex x bx) as [l Hl]; [lia|done|congruence|].
         rewrite Hx in Hl. congruence.
    * rewrite lookup_insert_ne in HF by done. rewrite app_nil_r.
      by apply Hmem.
  + intros i b' Hi Hb' Hfb'. apply Hsingle; [|done..].
    destruct (decide (i = k)) as [->|]; [|lia].
    rewrite Hb in Hb'. injection Hb' as <-. by destruct Hf.
Qed.

(** What step 2 leaves at a position: the record as it was, numeric if the
  position was visited, or the record with an assigned sub_id. *)
Lemma fill_fold_shape (l : list nat) (st : list balise * gset Z * Z)
  (i : nat) (b : balise) :
0 <= st.2 ->
st.1.1 !! i = Some b ->
((fold_left fill_step l st).1.1 !! i = Some b
 /\ (i ∈ l -> is_Some (sub_id_number b)))
\/ (sub_id_number b = None
    /\ exists n, 0 <= n
         /\ (fold_left fill_step l st).1.1 !! i
            = Some (set_item "sub_id" (VStr (PyStr.of_int n)) b)).
Proof.
revert st b. induction l as [|j l IH]; intros [[bs U] next] b Hnext Hb.
{ left. split; [done|]. by intros ?%elem_of_nil. }
change (fold_left fill_step (j :: l) (bs, U, next))
  with (fold_left fill_step l (fill_step (bs, U, next) j)).
simpl in Hnext, Hb.
assert (forall c, sub_id_number c = None \/ is_Some (sub_id_number c)) as Hcase.
{ intros c. destruct (sub_id_number c); eauto. }
remember (fill_step (bs, U, next) j) as st' eqn:Est.
unfold fill_step in Est.
destruct (bs !! j) as [bj|] eqn:Hbj.
2: { subst st'.
     destruct (IH (bs, U, next) b Hnext Hb) as [[H1 H2]|H]; [left|by right].
     split; [done|]. intros [->|Hi]%elem_of_cons; [congruence|auto]. }
destruct (String.eqb _ _ || negb _) eqn:Hmiss in Est; subst st'.
- set (n' := first_free (S (size U)) U next).
  assert (0 <= n') as Hn'
    by (pose proof (first_free_ge (S (size U)) U next); lia).
  destruct (decide (i = j)) as [->|Hne].
  + rewrite Hbj in Hb. injection Hb as ->.
    assert (sub_id_number b = None) as Hnone.
    { unfold sub_id_number.
      apply orb_true_iff in Hmiss as [He|Hd].
      - apply String.eqb_eq in He. by rewrite He.
      - apply negb_true_iff in Hd. by rewrite Hd. }
    right. split; [done|]. exists n'. split; [done|].
    set (b' := set_item "sub_id" (VStr (PyStr.of_int n')) b).
    destruct (IH (<[j := b']> bs, U ∪ {[n']}, n') b') as [[H1 _]|[H _]].
    * done.
    * simpl. apply list_lookup_insert_eq. by eapply lookup_lt_Some.
    * done.
    * subst b'. by rewrite sub_id_number_set in H.
  + destruct (IH (<[j := set_item "sub_id" (VStr (PyStr.of_int n')) bj]> bs,
                  U ∪ {[n']}, n') b) as [[H1 H2]|H]; [done| |left|by right].
    * simpl. by rewrite list_lookup_insert_ne.
    * split; [done|]. intros [->|Hi]%elem_of_cons; [done|auto].
- apply orb_false_iff in Hmiss as [_ Hd]. apply negb_false_iff in Hd.
  destruct (IH (bs, U, next) b Hnext Hb) as [[H1 H2]|H]; [left|by right].
  split; [done|]. intros [->|Hi]%elem_of_cons; [|auto].
  rewrite Hbj in Hb. injection Hb as ->.
  unfold sub_id_number. rewrite Hd.
  destruct (to_int_digits _ Hd) as (n & -> & _). eauto.
Qed.

(** Step 3 updates each position of a list without repetition once. *)
Lemma finish_fold_lookup (finish : nat -> balise -> balise) (c : nat)
  (l : list nat) (bs : list balise) (i : nat) :
NoDup l ->
fold_left (finish_step finish c) l bs !! i
= if decide (i ∈ l) then finish c <$> bs !! i else bs !! i.
Proof.
revert bs. induction l as [|j l IH]; intros bs Hnd; simpl; [done|].
apply NoDup_cons in Hnd as [Hj Hnd]. rewrite IH by done.
unfold finish_step.
destruct (decide (i = j)) as [->|Hne].
- rewrite decide_False by done. rewrite decide_True by left.
  destruct (bs !! j) as [b|] eqn:Hb; [|by rewrite Hb].
  rewrite list_lookup_insert_eq; [done|]. by eapply lookup_lt_Some.
- assert (match bs !! j with
          | Some b => <[j := finish c b]> bs
          | None => bs
          end !! i = bs !! i) as ->.
  { destruct (bs !! j); [|done]. by rewrite list_lookup_insert_ne. }
  destruct (decide (i ∈ l)) as [Hi|Hi].
  + rewrite decide_True; [done|by right].
  + rewrite decide_False; [done|]. by intros [?|?]%elem_of_cons.
Qed.

Lemma process_group_outside (finish : nat -> balise -> balise)
  (bs : list balise) (idxs : list nat) (i : nat) :
NoDup idxs -> i ∉ idxs -> process_group finish bs idxs !! i = bs !! i.
Proof.
intros Hnd Hi. unfold process_group.
rewrite finish_fold_lookup, decide_False by done.
by destruct (fill_fold_frame idxs (bs, fold_left (used_step bs) idxs ∅, 0))
  as [_ ->].
Qed.

Lemma process_group_length (finish : nat -> balise -> balise)
  (bs : list balise) (idxs : list nat) :
length (process_group finish bs idxs) = length bs.
Proof.
unfold process_group.
assert (forall l bs', length (fold_left (finish_step finish (length idxs)) l bs')
                      = length bs') as Hfin.
{ induction l as [|j l IH]; intros bs'; simpl; [done|]. rewrite IH.
  unfold finish_step. destruct (bs' !! j); [|done]. by rewrite length_insert. }
rewrite Hfin.
by destruct (fill_fold_frame idxs (bs, fold_left (used_step bs) idxs ∅, 0))
  as [-> _].
Qed.

(** What a group leaves at one of its positions. *)
Lemma process_group_member (finish : nat -> balise -> balise)
  (bs : list balise) (idxs : list nat) (i : nat) (b : balise) :
NoDup idxs -> i ∈ idxs -> bs !! i = Some b ->
exists b',
  process_group finish bs idxs !! i = Some (finish (length idxs) b')
  /\ ((b' = b /\ is_Some (sub_id_number b))
      \/ (sub_id_number b = None
          /\ exists n, 0 <= n
               /\ b' = set_item "sub_id" (VStr (PyStr.of_int n)) b)).
Proof.
intros Hnd Hi Hb. unfold process_group.
rewrite finish_fold_lookup, decide_True by done.
destruct (fill_fold_shape idxs (bs, fold_left (used_step bs) idxs ∅, 0) i b)
  as [[H1 H2]|(Hnone & n & Hn & H1)]; [simpl; lia|done|..].
- exists b. rewrite H1. split; [done|]. left. auto.
- eexists. rewrite H1. split; [done|]. right. eauto.
Qed.

(** The groups other than the one of a position leave it as it is. *)
Lemma groups_fold_outside (finish : nat -> balise -> balise)
  (gs : list (string * list nat)) (bs : list balise) (i : nat) :
(forall g, g ∈ gs -> NoDup g.2) ->
(forall g, g ∈ gs -> i ∉ g.2) ->
fold_left (fun bs g => process_group finish bs g.2) gs bs !! i = bs !! i.
Proof.
revert bs. induction gs as [|g gs IH]; intros bs Hnd Hi; simpl; [done|].
rewrite IH.
- apply process_group_outside; [apply Hnd|apply Hi]; left.
- intros g' Hg'. apply Hnd. by right.
- intros g' Hg'. apply Hi. by right.
Qed.

Lemma groups_fold_length (finish : nat -> balise -> balise)
  (gs : list (string * list nat)) (bs : list balise) :
length (fold_left (fun bs g => process_group finish bs g.2) gs bs) = length bs.
Proof.
revert bs. induction gs as [|g gs IH]; intros bs; simpl; [done|].
by rewrite IH, process_group_length.
Qed.

(** A group reads and writes its own positions only: two rosters with the
  same records there give the same records there. *)
Lemma used_fold_ext (bs1 bs2 : list balise) (l : list nat) (U : gset Z) :
(forall i, i ∈ l -> bs1 !! i = bs2 !! i) ->
fold_left (used_step bs1) l U = fold_left (used_step bs2) l U.
Proof.
revert U. induction l as [|j l IH]; intros U Hl; simpl; [done|].
unfold used_step at 2 4. rewrite (Hl j) by left.
apply IH. intros i Hi. apply Hl. by right.
Qed.

Lemma fill_fold_ext (S : list nat) (l : list nat)
  (bs1 bs2 : list balise) (U : gset Z) (next : Z) :
(forall i, i ∈ l -> i ∈ S) ->
(forall i, i ∈ S -> bs1 !! i = bs2 !! i) ->
forall i, i ∈ S ->
  (fold_left fill_step l (bs1, U, next)).1.1 !! i
  = (fold_left fill_step l (bs2, U, next)).1.1 !! i.
Proof.
revert bs1 bs2 U next.
induction l as [|j l IH]; intros bs1 bs2 U next Hl Hagree; [done|].
change (fold_left fill_step (j :: l) (bs1, U, next))
  with (fold_left fill_step l (fill_step (bs1, U, next) j)).
change (fold_left fill_step (j :: l) (bs2, U, next))
  with (fold_left fill_step l (fill_step (bs2, U, next) j)).
assert (forall i, i ∈ l -> i ∈ S) as Hl' by (intros i Hi; apply Hl; by right).
unfold fill_step at 2 4. rewrite <- (Hagree j) by (apply Hl; left).
destruct (bs1 !! j) as [b|] eqn:Hb; [|by apply IH].
destruct (String.eqb _ _ || negb _); [|by apply IH].
apply IH; [done|]. intros i Hi.
destruct (decide (i = j)) as [->|Hne].
- rewrite !list_lookup_insert_eq; [done| |by eapply lookup_lt_Some].
  apply (lookup_lt_Some _ _ b). rewrite <- Hagree; [done|]. apply Hl. left.
- rewrite !list_lookup_insert_ne by done. by apply Hagree.
Qed.

Lemma process_group_ext (finish : nat -> balise -> balise)
  (bs1 bs2 : list balise) (idxs : list nat) (i : nat) :
NoDup idxs ->
(forall j, j ∈ idxs -> bs1 !! j = bs2 !! j) ->
i ∈ idxs ->
process_group finish bs1 idxs !! i = process_group finish bs2 idxs !! i.
Proof.
intros Hnd Hagree Hi. unfold process_group.
rewrite !finish_fold_lookup, !decide_True by done.
rewrite (used_fold_ext bs1 bs2) by done.
by rewrite (fill_fold_ext idxs idxs bs1 bs2).
Qed.

(** The first loop, complete: the state the second loop starts from. *)
Lemma group_balises_spec (single : balise -> balise) (roster : list balise) :
let st := group_balises single roster in
length st.1 = length roster
/\ NoDup st.2.*1
/\ (forall F idxs, (F, idxs) ∈ st.2 -> F <> "" /\ idxs = member_indices roster F)
/\ (forall i b, roster !! i = Some b -> father_of b <> "" ->
      st.1 !! i = Some b /\ (father_of b, member_indices roster (father_of b)) ∈ st.2)
/\ (forall i b, roster !! i = Some b -> father_of b = "" ->
      st.1 !! i = Some (single b)).
Proof.
cbv zeta. unfold group_balises.
destruct (group_fold_spec single roster (length roster))
  as (Hlen & _ & Hmem & Hnd & Hgrp & Hex); [lia|].
destruct (group_fold_members single roster (length roster))
  as [Hidx Hsingle]; [lia|].
destruct (fold_left (group_step single) _ _) as [bs gs]. cbn [fst snd] in *.
split_and!; [done|done| | |].
- intros F idxs Hin. apply elem_of_list_to_map_1 in Hin; [|done].
  split; [by apply Hgrp in Hin as [? _]|]. by apply Hidx.
- intros i b Hb Hf. split; [by apply Hmem|].
  destruct (Hex i b) as [idxs Hidxs]; [by eapply lookup_lt_Some|done..|].
  rewrite (Hidx _ _ Hidxs) in Hidxs. by apply elem_of_list_to_map_2.
- intros i b Hb Hf. apply Hsingle; [by eapply lookup_lt_Some|done..].
Qed.

Lemma NoDup_member_indices (roster : list balise) (F : string) :
NoDup (member_indices roster F).
Proof. apply NoDup_filter, NoDup_seq. Qed.

(** A record with a father: its group is processed as if the roster had
  no other group. *)
Lemma assign_groups_member (single : balise -> balise)
  (finish : nat -> balise -> balise) (roster : list balise)
  (i : nat) (b : balise) :
roster !! i = Some b -> father_of b <> "" ->
assign_groups single finish roster !! i
= process_group finish roster (member_indices roster (father_of b)) !! i.
Proof.
intros Hb Hf. unfold assign_groups.
destruct (group_balises_spec single roster) as (Hlen & Hnd & Hgs & Hmem & _).
destruct (group_balises single roster) as [bs gs]. cbn [fst snd] in *.
destruct (Hmem i b Hb Hf) as [_ Hin].
set (F := father_of b) in *. set (T := member_indices roster F) in *.
assert (i ∈ T) as HiT by (apply member_indices_spec; by rewrite Hb).
assert (forall g, g ∈ gs -> NoDup g.2) as HndG.
{ intros [F' l] [_ ->]%Hgs. apply NoDup_member_indices. }
assert (forall j g, j ∈ T -> g ∈ gs -> g.1 <> F -> j ∉ g.2) as Hdisj.
{ intros j [F' l] Hj [_ ->]%Hgs Hne Hjl. simpl in *.
  apply member_indices_spec in Hj, Hjl. congruence. }
apply list_elem_of_split in Hin as (g1 & g2 & ->).
rewrite fmap_app, fmap_cons in Hnd. simpl in Hnd.
apply NoDup_app in Hnd as (_ & Hg1 & [Hg2 _]%NoDup_cons).
assert (forall g, g ∈ g1 -> g.1 <> F) as Hne1.
{ intros g Hg HgF. apply (Hg1 F); [|left].
  rewrite <- HgF. by apply (list_elem_of_fmap_2 fst). }
assert (forall g, g ∈ g2 -> g.1 <> F) as Hne2.
{ intros g Hg HgF. apply Hg2.
  rewrite <- HgF. by apply (list_elem_of_fmap_2 fst). }
rewrite fold_left_app. simpl.
rewrite groups_fold_outside.
- apply process_group_ext; [apply NoDup_member_indices| |done].
  intros j Hj. rewrite groups_fold_outside.
  + pose proof Hj as Hj'%member_indices_spec.
    destruct (roster !! j) as [bj|] eqn:Hbj; [|done].
    simpl in Hj'. injection Hj' as Hj'.
    apply (Hmem j bj); [done|]. fold F in Hf. congruence.
  + intros g Hg. apply HndG. rewrite elem_of_app. by left.
  + intros g Hg. apply Hdisj; [done| |by apply Hne1].
    rewrite elem_of_app. by left.
- intros g Hg. apply HndG. rewrite elem_of_app, elem_of_cons. auto.
- intros g Hg. apply Hdisj; [done| |by apply Hne2].
  rewrite elem_of_app, elem_of_cons. auto.
Qed.

(** A record without father is updated by the first loop and left alone by
  the second. *)
Lemma assign_groups_single (single : balise -> balise)
  (finish : nat -> balise -> balise) (roster : list balise)
  (i : nat) (b : balise) :
roster !! i = Some b -> father_of b = "" ->
assign_groups single finish roster !! i = Some (single b).
Proof.
intros Hb Hf. unfold assign_groups.
destruct (group_balises_spec single roster) as (Hlen & Hnd & Hgs & _ & Hsingle).
destruct (group_balises single roster) as [bs gs]. cbn [fst snd] in *.
rewrite groups_fold_outside; [by apply Hsingle| |].
- intros [F' l] [_ ->]%Hgs. apply NoDup_member_indices.
- intros [F' l] [HF' ->]%Hgs Hil. simpl in Hil.
  apply member_indices_spec in Hil. rewrite Hb in Hil. simpl in Hil. congruence.
Qed.

Lemma assign_groups_length (single : balise -> balise)
  (finish : nat -> balise -> balise) (roster : list balise) :
length (assign_groups single finish roster) = length roster.
Proof.
unfold assign_groups. rewrite groups_fold_length.
by destruct (group_balises_spec single roster) as [-> _].
Qed.

(** The record a member of a group ends with. *)
Lemma assign_groups_member_shape (single : balise -> balise)
  (finish : nat -> balise -> balise) (roster : list balise)
  (i : nat) (b : balise) :
roster !! i = Some b -> father_of b <> "" ->
exists b',
  assign_groups single finish roster !! i
  = Some (finish (length (member_indices roster (father_of b))) b')
  /\ ((b' = b /\ is_Some (sub_id_number b))
      \/ (sub_id_number b = None
          /\ exists n, 0 <= n
               /\ b' = set_item "sub_id" (VStr (PyStr.of_int n)) b)).
Proof.
intros Hb Hf. rewrite (assign_groups_member single finish roster i b Hb Hf).
apply process_group_member; [apply NoDup_member_indices| |done].
apply member_indices_spec. by rewrite Hb.
Qed.

End group_shape.

(** ** Group assignment: what the two functions do to a roster *)

Section group_extra.
Import GroupAssigner.

Lemma process_group_lookup (finish : nat -> balise -> balise)
  (bs : list balise) (idxs : list nat) (i : nat) :
NoDup idxs -> i ∈ idxs ->
process_group finish bs idxs !! i
= finish (length idxs)
    <$> (fold_left fill_step idxs
           (bs, fold_left (used_step bs) idxs ∅, 0)).1.1 !! i.
Proof.
intros Hnd Hi. unfold process_group.
by rewrite finish_fold_lookup, decide_True.
Qed.

Lemma father_of_set_ne (k : string) (v : pyval) (b : balise) :
k <> "father_balise" -> father_of (set_item k v b) = father_of b.
Proof. intros H. by apply get_stripped_set_ne. Qed.

Lemma ConfigManager_single_father (b : balise) :
father_of (ConfigManager.single b) = father_of b.
Proof. unfold ConfigManager.single. by rewrite !father_of_set_ne. Qed.

Lemma SimulationWidget_single_father (b : balise) :
father_of (SimulationWidget.single b) = father_of b.
Proof. unfold SimulationWidget.single. by rewrite !father_of_set_ne. Qed.

Lemma ConfigManager_finish_father (c : nat) (b : balise) :
father_of (ConfigManager.finish c b) = father_of b.
Proof. unfold ConfigManager.finish. by rewrite !father_of_set_ne. Qed.

Lemma SimulationWidget_finish_father (c : nat) (b : balise) :
father_of (SimulationWidget.finish c b) = father_of b.
Proof. unfold SimulationWidget.finish. by rewrite !father_of_set_ne. Qed.

Lemma balise_eq (b1 b2 : balise) :
b_name b1 = b_name b2 -> b_location b1 = b_location b2 ->
(forall k, b_items b1 !! k = b_items b2 !! k) -> b1 = b2.
Proof.
destruct b1, b2. simpl. intros -> -> H. f_equal. by apply map_eq.
Qed.

Lemma ConfigManager_n_pig_of_set (k : string) (v : pyval) (b : balise) :
k <> "sub_id" ->
ConfigManager.n_pig_of (set_item k v b) = ConfigManager.n_pig_of b.
Proof.
intros H. unfold ConfigManager.n_pig_of, set_item. simpl.
by rewrite lookup_insert_ne.
Qed.

Ltac items_cases k :=
simpl; rewrite ?lookup_insert; repeat case_decide; subst; done.

Lemma ConfigManager_single_idem (b : balise) :
ConfigManager.single (ConfigManager.single b) = ConfigManager.single b.
Proof.
apply balise_eq; [done..|]. intros k. unfold ConfigManager.single, set_item.
items_cases k.
Qed.

Lemma SimulationWidget_single_idem (b : balise) :
SimulationWidget.single (SimulationWidget.single b) = SimulationWidget.single b.
Proof.
apply balise_eq; [done..|]. intros k. unfold SimulationWidget.single, set_item.
items_cases k.
Qed.

Lemma ConfigManager_finish_idem (c : nat) (b : balise) :
ConfigManager.finish c (ConfigManager.finish c b) = ConfigManager.finish c b.
Proof.
unfold ConfigManager.finish.
rewrite !ConfigManager_n_pig_of_set by done.
apply balise_eq; [done..|]. intros k. unfold set_item.
items_cases k.
Qed.

Lemma SimulationWidget_finish_idem (c : nat) (b : balise) :
SimulationWidget.finish c (SimulationWidget.finish c b)
= SimulationWidget.finish c b.
Proof.
apply balise_eq; [done..|]. intros k. unfold SimulationWidget.finish, set_item.
items_cases k.
Qed.

(** The fathers of a roster are not changed. *)
Lemma assign_groups_father (single : balise -> balise)
  (finish : nat -> balise -> balise) (roster : list balise) (i : nat) :
(forall b, father_of (single b) = father_of b) ->
(forall c b, father_of (finish c b) = father_of b) ->
father_of <$> assign_groups single finish roster !! i
= father_of <$> roster !! i.
Proof.
intros Hs Hf. destruct (roster !! i) as [b|] eqn:Hb.
- destruct (decide (father_of b = "")) as [He|Hne].
  + rewrite (assign_groups_single single finish roster i b) by done.
    simpl. by rewrite Hs.
  + destruct (assign_groups_member_shape single finish roster i b)
      as (b' & -> & [[-> _]|(_ & n & _ & ->)]); [done..| |]; simpl.
    * by rewrite Hf.
    * by rewrite Hf, father_of_set_ne.
- apply lookup_ge_None in Hb. rewrite <- (assign_groups_length single finish) in Hb.
  apply lookup_ge_None in Hb. by rewrite Hb.
Qed.

Lemma assign_groups_members (single : balise -> balise)
  (finish : nat -> balise -> balise) (roster : list balise) (F : string) :
(forall b, father_of (single b) = father_of b) ->
(forall c b, father_of (finish c b) = father_of b) ->
member_indices (assign_groups single finish roster) F = member_indices roster F.
Proof.
intros Hs Hf. unfold member_indices. rewrite assign_groups_length.
apply list_filter_iff. intros i.
by rewrite (assign_groups_father single finish roster i Hs Hf).
Qed.

(** Running the assignment on its own result changes nothing. *)
Lemma assign_groups_idem (single : balise -> balise)
  (finish : nat -> balise -> balise) (roster : list balise) :
(forall b, father_of (single b) = father_of b) ->
(forall c b, father_of (finish c b) = father_of b) ->
(forall c b, sub_id_number (finish c b) = sub_id_number b) ->
(forall b, single (single b) = single b) ->
(forall c b, finish c (finish c b) = finish c b) ->
assign_groups single finish (assign_groups single finish roster)
= assign_groups single finish roster.
Proof.
intros Hs Hf Hn Hss Hff. apply list_eq. intros i.
destruct (roster !! i) as [b|] eqn:Hb.
- destruct (decide (father_of b = "")) as [He|Hne].
  + pose proof (assign_groups_single single finish roster i b Hb He) as H1.
    rewrite H1.
    rewrite (assign_groups_single single finish _ i (single b)); [|done|].
    * by rewrite Hss.
    * by rewrite Hs.
  + destruct (assign_groups_member_shape single finish roster i b Hb Hne)
      as (b' & H1 & Hb').
    assert (father_of b' = father_of b /\ is_Some (sub_id_number b'))
      as [Hfb' Hnum].
    { destruct Hb' as [[-> ?]|(_ & n & Hn0 & ->)]; [done|].
      rewrite father_of_set_ne by done. split; [done|].
      rewrite sub_id_number_set by done. eauto. }
    set (c := length (member_indices roster (father_of b))) in *.
    destruct (assign_groups_member_shape single finish _ i (finish c b') H1)
      as (b2 & H2 & Hb2).
    { by rewrite Hf, Hfb'. }
    rewrite H2, H1, Hf, Hfb', assign_groups_members by done. fold c.
    destruct Hb2 as [[-> _]|[Hnone _]].
    * by rewrite Hff.
    * rewrite Hn in Hnone. rewrite Hnone in Hnum. by destruct Hnum.
- apply lookup_ge_None in Hb.
  rewrite <- (assign_groups_length single finish) in Hb.
  pose proof Hb as Hb2.
  rewrite <- (assign_groups_length single finish) in Hb2.
  apply lookup_ge_None in Hb, Hb2. by rewrite Hb, Hb2.
Qed.

End group_extra.

(** X8: the search for a free sub_id, [while next_id in used_ids], ends on
    the smallest number from [next_id] on that is not in use: the result is
    not below [next_id], is not in use, and every number between the two is
    in use. *)
Theorem first_free_smallest (used_ids : gset Z) (next_id : Z) :
  let r := GroupAssigner.first_free (S (size used_ids)) used_ids next_id in
  next_id <= r /\ (r ∉ used_ids) /\ forall m, next_id <= m < r -> m ∈ used_ids.
Proof.
  cbv zeta. split_and!.
  - apply first_free_ge.
  - apply first_free_not_used.
  - intros m. apply first_free_least.
Qed.



(** X10: a record without father gets the fields of a single balise in the
    first loop, and the second loop does not touch it. *)
Theorem no_father_record (roster : list balise) (i : nat) (b : balise) :
  roster !! i = Some b -> father_of b = "" ->
  ConfigManager.process_balise_groups roster !! i = Some (ConfigManager.single b)
  /\ SimulationWidget.process_balise_ids roster !! i
     = Some (SimulationWidget.single b).
Proof.
  intros Hb Hf. split; by apply assign_groups_single.
Qed.

Lemma no_father_record_witness :
  ConfigManager.process_balise_groups roster_ABC !! 0%nat
  = Some (ConfigManager.single
            (Balise (Some "A") None {[ "father_balise" := VStr "" ]}))
  /\ SimulationWidget.process_balise_ids roster_ABC !! 0%nat
     = Some (SimulationWidget.single
               (Balise (Some "A") None {[ "father_balise" := VStr "" ]})).
Proof.
  apply (no_father_record roster_ABC 0); reflexivity.
Defined.

Section group_frame.
Import GroupAssigner.

Lemma same_outside_refl (ks : list string) (b : balise) : same_outside ks b b.
Proof. done. Qed.

Lemma same_outside_trans (ks : list string) (b1 b2 b3 : balise) :
same_outside ks b1 b2 -> same_outside ks b2 b3 -> same_outside ks b1 b3.
Proof.
intros (? & ? & H1) (? & ? & H2). split_and!; [congruence..|].
intros k Hk. by rewrite H1, H2.
Qed.

Lemma same_outside_set (ks : list string) (k : string) (v : pyval) (b : balise) :
k ∈ ks -> same_outside ks (set_item k v b) b.
Proof.
intros Hk. split_and!; [done..|]. intros k' Hk'. simpl.
apply lookup_insert_ne. by intros ->.
Qed.

Lemma ConfigManager_single_frame (b : balise) :
same_outside assigned_keys (ConfigManager.single b) b.
Proof.
unfold ConfigManager.single.
repeat (eapply same_outside_trans;
        [apply same_outside_set; unfold assigned_keys; set_solver|]).
apply same_outside_refl.
Qed.

Lemma SimulationWidget_single_frame (b : balise) :
same_outside assigned_keys (SimulationWidget.single b) b.
Proof.
unfold SimulationWidget.single.
repeat (eapply same_outside_trans;
        [apply same_outside_set; unfold assigned_keys; set_solver|]).
apply same_outside_refl.
Qed.

Lemma ConfigManager_finish_frame (c : nat) (b : balise) :
same_outside assigned_keys (ConfigManager.finish c b) b.
Proof.
unfold ConfigManager.finish. cbv zeta.
repeat (eapply same_outside_trans;
        [apply same_outside_set; unfold assigned_keys; set_solver|]).
apply same_outside_refl.
Qed.

Lemma SimulationWidget_finish_frame (c : nat) (b : balise) :
same_outside assigned_keys (SimulationWidget.finish c b) b.
Proof.
unfold SimulationWidget.finish.
repeat (eapply same_outside_trans;
        [apply same_outside_set; unfold assigned_keys; set_solver|]).
apply same_outside_refl.
Qed.

Lemma assign_groups_frame (single : balise -> balise)
  (finish : nat -> balise -> balise) (roster : list balise)
  (i : nat) (b : balise) :
(forall b, same_outside assigned_keys (single b) b) ->
(forall c b, same_outside assigned_keys (finish c b) b) ->
roster !! i = Some b ->
exists b', assign_groups single finish roster !! i = Some b'
           /\ same_outside assigned_keys b' b.
Proof.
intros Hs Hf Hb. destruct (decide (father_of b = "")) as [He|Hne].
- exists (single b). split; [by apply assign_groups_single|done].
- destruct (assign_groups_member_shape single finish roster i b Hb Hne)
    as (b' & H1 & Hb').
  eexists. split; [done|]. eapply same_outside_trans; [apply Hf|].
  destruct Hb' as [[-> _]|(_ & n & _ & ->)]; [done|].
  apply same_outside_set. unfold assigned_keys. set_solver.
Qed.

End group_frame.

(** X11: the assignment keeps the length of the roster, and it changes no
    record outside the keys ["sub_id"], ["n_pig"], ["n_total"] and
    ["q_link"]: the name, the location and every other key of a record are
    as before. *)
Theorem assignment_frame (roster : list balise) (i : nat) (b : balise) :
  roster !! i = Some b ->
  (length (ConfigManager.process_balise_groups roster) = length roster
   /\ exists b', ConfigManager.process_balise_groups roster !! i = Some b'
                 /\ same_outside assigned_keys b' b)
  /\ (length (SimulationWidget.process_balise_ids roster) = length roster
      /\ exists b', SimulationWidget.process_balise_ids roster !! i = Some b'
                    /\ same_outside assigned_keys b' b).
Proof.
  intros Hb. split; (split; [apply assign_groups_length|]).
  - apply assign_groups_frame;
      auto using ConfigManager_single_frame, ConfigManager_finish_frame.
  - apply assign_groups_frame;
      auto using SimulationWidget_single_frame, SimulationWidget_finish_frame.
Qed.

Lemma assignment_frame_witness :
  (length (ConfigManager.process_balise_groups roster_ABC) = length roster_ABC
   /\ exists b', ConfigManager.process_balise_groups roster_ABC !! 2%nat = Some b'
        /\ same_outside assigned_keys b'
             (Balise (Some "C") None
                {[ "father_balise" := VStr "A"; "sub_id" := VStr "0" ]}))
  /\ (length (SimulationWidget.process_balise_ids roster_ABC) = length roster_ABC
      /\ exists b', SimulationWidget.process_balise_ids roster_ABC !! 2%nat = Some b'
           /\ same_outside assigned_keys b'
                (Balise (Some "C") None
                   {[ "father_balise" := VStr "A"; "sub_id" := VStr "0" ]})).
Proof.
  apply (assignment_frame roster_ABC 2). reflexivity.
Defined.

Section group_fields.
Import GroupAssigner.






End group_fields.





Section group_agreement.
Import GroupAssigner.

Lemma finish_same_outside_n_pig (c : nat) (b : balise) :
same_outside ["n_pig"] (ConfigManager.finish c b) (SimulationWidget.finish c b).
Proof.
split_and!; [done..|]. intros k Hk.
assert (k <> "n_pig") as Hne by set_solver.
unfold ConfigManager.finish, SimulationWidget.finish, set_item. simpl.
rewrite !lookup_insert. repeat case_decide; subst; done.
Qed.

Lemma single_same_outside_n_pig (b : balise) :
same_outside ["n_pig"] (ConfigManager.single b) (SimulationWidget.single b).
Proof.
split_and!; [done..|]. intros k Hk.
assert (k <> "n_pig") as Hne by set_solver.
unfold ConfigManager.single, SimulationWidget.single, set_item. simpl.
rewrite !lookup_insert. repeat case_decide; subst; done.
Qed.

End group_agreement.

(** X14: [process_balise_groups] and [_process_balise_ids] give the same
    roster up to the key ["n_pig"], which only the first writes. *)
Theorem implementations_agree (roster : list balise) :
  Forall2 (same_outside ["n_pig"])
    (ConfigManager.process_balise_groups roster)
    (SimulationWidget.process_balise_ids roster).
Proof.
  apply Forall2_same_length_lookup_2.
  { unfold ConfigManager.process_balise_groups,
      SimulationWidget.process_balise_ids.
    by rewrite !assign_groups_length. }
  intros i b1 b2 H1 H2.
  unfold ConfigManager.process_balise_groups in H1.
  unfold SimulationWidget.process_balise_ids in H2.
  destruct (roster !! i) as [b|] eqn:Hb.
  2: { apply lookup_ge_None in Hb.
       rewrite <- (assign_groups_length ConfigManager.single ConfigManager.finish)
         in Hb.
       apply lookup_ge_None in Hb. congruence. }
  destruct (decide (father_of b = "")) as [He|Hne].
  - rewrite (assign_groups_single _ _ roster i b) in H1 by done.
    rewrite (assign_groups_single _ _ roster i b) in H2 by done.
    injection H1 as <-. injection H2 as <-. apply single_same_outside_n_pig.
  - rewrite (assign_groups_member _ _ roster i b) in H1 by done.
    rewrite (assign_groups_member _ _ roster i b) in H2 by done.
    assert (i ∈ member_indices roster (father_of b)) as Hi
      by (apply member_indices_spec; by rewrite Hb).
    rewrite process_group_lookup in H1 by (done || apply NoDup_member_indices).
    rewrite process_group_lookup in H2 by (done || apply NoDup_member_indices).
    destruct (_ !! i) as [x|]; [|done].
    injection H1 as <-. injection H2 as <-. apply finish_same_outside_n_pig.
Qed.

(** X15: running the assignment on its own result changes nothing, for
    [process_balise_groups] and for [_process_balise_ids]. *)
Theorem assignment_idempotent (roster : list balise) :
  ConfigManager.process_balise_groups (ConfigManager.process_balise_groups roster)
  = ConfigManager.process_balise_groups roster
  /\ SimulationWidget.process_balise_ids
       (SimulationWidget.process_balise_ids roster)
     = SimulationWidget.process_balise_ids roster.
Proof.
  split.
  - apply assign_groups_idem;
      auto using ConfigManager_single_father, ConfigManager_finish_father,
        ConfigManager_finish_sub_id, ConfigManager_single_idem,
        ConfigManager_finish_idem.
  - apply assign_groups_idem;
      auto using SimulationWidget_single_father, SimulationWidget_finish_father,
        SimulationWidget_finish_sub_id, SimulationWidget_single_idem,
        SimulationWidget_finish_idem.
Qed.

Section group_bound.
Import GroupAssigner.







End group_bound.



Section n_pig_extra.
Import GroupAssigner.





End n_pig_extra.



(** ** Signal authorization: green and red *)

Section authorization_extra.
Import SimulationWidget.





End authorization_extra.



(** X19: a scheduled train authorizes green only from one of its times of
    departure on: the time of the start station, or the time of leaving the
    end station. *)
Theorem scheduled_train_waits (w : SimulationWidget.widget) (i : nat)
    (b : balise) (dt : SimulationWidget.time) (t : SimulationWidget.train) :
  SimulationWidget.schedule_managed t = true ->
  SimulationWidget.train_authorizes w i b dt t = true ->
  exists target,
    (SimulationWidget.or_else (SimulationWidget.dep_start t)
       (SimulationWidget.dep_time t) = Some target
     \/ SimulationWidget.or_else (SimulationWidget.leave_end t)
          (SimulationWidget.leave_time t) = Some target)
    /\ target <= dt.
Proof.
  intros Hs. unfold SimulationWidget.train_authorizes, SimulationWidget.relevance.
  rewrite Hs. cbv zeta.
  assert (forall (o : option SimulationWidget.time),
            (if true
             then match o with
                  | Some target =>
                      if target <=? dt
                      then match SimulationWidget.balise_pass_times w !! i with
                           | Some lp =>
                               if lp <? target then true
                               else dt - lp <? 3000000
                           | None => true
                           end
                      else false
                  | None => false
                  end
             else false) = true ->
            exists target, o = Some target /\ target <= dt) as Hcase.
  { intros [target|]; [|done]. destruct (target <=? dt) eqn:E; [|done].
    intros _. exists target. split; [done|]. by apply Z.leb_le. }
  destruct (SimulationWidget.station_balise _ _).
  { intros (target & E & Hle)%Hcase. eauto. }
  destruct (SimulationWidget.station_balise _ _).
  { simpl. intros (target & E & Hle)%Hcase. eauto. }
  destruct (SimulationWidget.get_loc _ _ _); [|done].
  destruct (SimulationWidget.get_loc _ _ _); [|done].
  destruct (_ && _); [|done].
  intros (target & E & Hle)%Hcase. eauto.
Qed.

Lemma scheduled_train_waits_witness :
  exists target,
    (SimulationWidget.or_else (SimulationWidget.dep_start Scenario.timed_train)
       (SimulationWidget.dep_time Scenario.timed_train) = Some target
     \/ SimulationWidget.or_else (SimulationWidget.leave_end Scenario.timed_train)
          (SimulationWidget.leave_time Scenario.timed_train) = Some target)
    /\ target <= 200.
Proof.
  apply (scheduled_train_waits Fixtures.stop_widget 0 Fixtures.stop_balise 200
           Scenario.timed_train); reflexivity.
Defined.





(** ** The speed of a train *)

Section motion_extra.
Import SimulationWidget.

(** The loop over the valid restrictions computes a minimum. *)
Lemma limit_fold_min (loc : Q) (l : list restriction) (a : Q) :
let limit := fold_left (limit_step loc) l a in
(limit <= a)%Q
/\ (forall r, In r l -> (start_km r <= loc)%Q -> (limit <= speed r)%Q)
/\ (limit = a
    \/ exists r, In r l /\ (start_km r <= loc)%Q /\ limit = speed r).
Proof.
cbv zeta. revert a. induction l as [|r l IH]; intros a; simpl.
{ split_and!; [apply Qle_refl|done|by left]. }
destruct (IH (limit_step loc a r)) as (Hle & Hall & Hatt).
assert ((limit_step loc a r <= a)%Q
        /\ ((start_km r <= loc)%Q -> (limit_step loc a r <= speed r)%Q)
        /\ (limit_step loc a r = a
            \/ ((start_km r <= loc)%Q /\ limit_step loc a r = speed r)))
  as (H1 & H2 & H3).
{ unfold limit_step.
  destruct (Qle_bool (start_km r) loc) eqn:Es.
  - apply Qle_bool_iff in Es.
    destruct (Qlt_bool (speed r) a) eqn:El.
    + apply Qlt_bool_true in El.
      split_and!; [by apply Qlt_le_weak|intros; apply Qle_refl|by right].
    + apply Qlt_bool_false in El.
      split_and!; [apply Qle_refl|done|by left].
  - split_and!; [apply Qle_refl| |by left].
    intros Hs. apply Qle_bool_iff in Hs. congruence. }
split_and!.
- by eapply Qle_trans.
- intros r' [<-|Hr'] Hs.
  + eapply Qle_trans; [exact Hle|]. by apply H2.
  + by apply Hall.
- destruct Hatt as [->|(r' & Hr' & Hs & ->)].
  + destruct H3 as [->|[Hs ->]]; [by left|]. right. exists r. auto.
  + right. exists r'. auto.
Qed.

Lemma filter_idem {A} (f : A -> bool) (l : list A) :
List.filter f (List.filter f l) = List.filter f l.
Proof.
induction l as [|x l IH]; simpl; [done|].
destruct (f x) eqn:E; simpl; [|done]. by rewrite E, IH.
Qed.

Lemma In_filter_not_expired (loc : Q) (l : list restriction) (r : restriction) :
In r (List.filter (fun r => negb (expired loc r)) l)
<-> In r l /\ expired loc r = false.
Proof. rewrite filter_In, negb_true_iff. tauto. Qed.

Lemma same_journey_refl (t : train) : same_journey t t.
Proof. unfold same_journey. by split_and!. Qed.

Lemma same_journey_trans (t1 t2 t3 : train) :
same_journey t1 t2 -> same_journey t2 t3 -> same_journey t1 t3.
Proof.
unfold same_journey. intros H1 H2.
repeat match goal with H : _ /\ _ |- _ => destruct H end.
split_and!; congruence.
Qed.

Lemma absolute_stop_journey (t : train) : same_journey t (absolute_stop t).
Proof. unfold same_journey. by split_and!. Qed.

Lemma apply_ctcs2_journey (b_loc : Q) (eff : balise) (t : train) :
same_journey t (apply_ctcs2 b_loc eff t).1.
Proof.
unfold apply_ctcs2. repeat case_match; simpl; unfold same_journey; by split_and!.
Qed.

Lemma apply_etcs27_journey (w : widget) (eff : balise) (t : train) :
same_journey t (apply_etcs27 w eff t).1.
Proof.
unfold apply_etcs27. repeat case_match; simpl; unfold same_journey; by split_and!.
Qed.

Lemma apply_speed_limit_journey (py_float : pyval -> option Q) (eff : balise)
  (t : train) :
same_journey t (apply_speed_limit py_float eff t).
Proof.
unfold apply_speed_limit. repeat case_match; simpl; unfold same_journey; by split_and!.
Qed.


Lemma handle_balise_pass_same_journey (py_float : pyval -> option Q)
  (w : widget) (now : time) (t t' : train) (b : balise) (index : Z) :
handle_balise_pass py_float w now t b index = Some t' -> same_journey t t'.
Proof.
unfold handle_balise_pass.
destruct (effective_balise_of w now b index) as [eff|];
  [|done].
cbn [mbind option_bind].
set (t1 := match b_items eff !! "CTCS-5" with
           | Some _ => (absolute_stop t, true)
           | None => (t, false)
           end).
assert (same_journey t t1.1) as H1.
{ unfold t1. destruct (b_items eff !! "CTCS-5");
    [apply absolute_stop_journey|apply same_journey_refl]. }
destruct t1 as [t1 log5]. simpl in H1.
pose proof (apply_ctcs2_journey (default 0%Q (b_location b)) eff t1) as H2.
destruct (apply_ctcs2 _ eff t1) as [t2 log2]. simpl in H2.
pose proof (apply_etcs27_journey w eff t2) as H3.
destruct (apply_etcs27 w eff t2) as [t3 log27]. simpl in H3.
intros [= <-].
assert (same_journey t t3) as H13
  by (eapply same_journey_trans; [|exact H3];
      eapply same_journey_trans; [exact H1|exact H2]).
destruct (log5 || log2 || log27); [done|].
eapply same_journey_trans; [exact H13|]. apply apply_speed_limit_journey.
Qed.


(** Passing a balise of the roster does not fail. *)
Lemma handle_balise_pass_total (py_float : pyval -> option Q)
  (w : widget) (now : time) (t : train) (b b' : balise) (i : nat) :
balises w !! i = Some b' ->
is_Some (handle_balise_pass py_float w now t b (Z.of_nat i)).
Proof.
intros Hb.
assert (is_Some (effective_balise_of w now b (Z.of_nat i))) as [eff Heff].
{ unfold effective_balise_of.
  assert ((0 <=? Z.of_nat i) = true) as -> by (apply Z.leb_le; lia).
  rewrite Nat2Z.id. unfold get_effective_balise_packets. rewrite Hb.
  repeat case_match; eauto. }
rewrite (handle_balise_pass_effective py_float w now t b _ eff Heff).
repeat case_match; eauto.
Qed.

End motion_extra.

(** X22: [check_restrictions] sets the current speed limit to the minimum
    of the base speed and the speeds of the restrictions in force, those
    that have not expired and whose start the train has reached: the limit
    is not above any of them, and it is one of them. *)
Theorem check_restrictions_limit (w : SimulationWidget.widget)
    (t : SimulationWidget.train) :
  let loc := default 0%Q (SimulationWidget.current_location t) in
  let base := default (default 350%Q (SimulationWidget.max_speed w))
                (SimulationWidget.base_speed t) in
  let restrs := default [] (SimulationWidget.active_restrictions t) in
  exists limit,
    SimulationWidget.current_speed_limit (SimulationWidget.check_restrictions w t)
    = Some limit
    /\ (limit <= base)%Q
    /\ (forall r, In r restrs -> SimulationWidget.expired loc r = false ->
          (SimulationWidget.start_km r <= loc)%Q ->
          (limit <= SimulationWidget.speed r)%Q)
    /\ (limit = base
        \/ exists r, In r restrs /\ SimulationWidget.expired loc r = false
             /\ (SimulationWidget.start_km r <= loc)%Q
             /\ limit = SimulationWidget.speed r).
Proof.
  cbv zeta. eexists. split; [reflexivity|].
  destruct (limit_fold_min (default 0%Q (SimulationWidget.current_location t))
              (List.filter
                 (fun r => negb (SimulationWidget.expired
                                   (default 0%Q (SimulationWidget.current_location t)) r))
                 (default [] (SimulationWidget.active_restrictions t)))
              (default (default 350%Q (SimulationWidget.max_speed w))
                 (SimulationWidget.base_speed t)))
    as (Hle & Hall & Hatt).
  split_and!.
  - exact Hle.
  - intros r Hr He Hs. apply Hall; [|done]. by apply In_filter_not_expired.
  - destruct Hatt as [->|(r & [Hr He]%In_filter_not_expired & Hs & ->)];
      [by left|].
    right. exists r. auto.
Qed.

(** X23: [check_restrictions] applied to its own result changes nothing. *)
Theorem check_restrictions_idempotent (w : SimulationWidget.widget)
    (t : SimulationWidget.train) :
  SimulationWidget.check_restrictions w (SimulationWidget.check_restrictions w t)
  = SimulationWidget.check_restrictions w t.
Proof.
  unfold SimulationWidget.check_restrictions. simpl.
  by rewrite filter_idem.
Qed.



(** X25: passing a balise changes at most the base speed, the current
    speed limit and the active restrictions of the train: its name, its
    schedule and its location are as before. *)
Theorem handle_balise_pass_journey (py_float : pyval -> option Q)
    (w : SimulationWidget.widget) (now : SimulationWidget.time)
    (t t' : SimulationWidget.train) (b : balise) (index : Z) :
  SimulationWidget.handle_balise_pass py_float w now t b index = Some t' ->
  same_journey t t'.
Proof. apply handle_balise_pass_same_journey. Qed.

Lemma handle_balise_pass_journey_witness :
  same_journey Fixtures.far_train
    (SimulationWidget.absolute_stop Fixtures.far_train).
Proof.
  apply (handle_balise_pass_journey Fixtures.no_float Fixtures.stop_widget 0
           Fixtures.far_train (SimulationWidget.absolute_stop Fixtures.far_train)
           Fixtures.stop_balise 0).
  vm_compute. reflexivity.
Defined.

(** ** Exit balises and crossings *)

Section traffic_extra.
Import SimulationWidget Traffic.

Lemma find_exit_Some (s : string) (bs : list balise) (i i' : nat) (b : balise) :
find_exit s i bs = Some (i', b)
<-> exists j, i' = (i + j)%nat /\ bs !! j = Some b /\ exit_criteria s b = true
      /\ forall j' b', (j' < j)%nat -> bs !! j' = Some b' ->
           exit_criteria s b' = false.
Proof.
revert i. induction bs as [|b0 bs IH]; intros i; simpl.
{ split; [done|]. by intros (j & _ & ? & _). }
destruct (exit_criteria s b0) eqn:E0.
- split.
  + intros [= <- <-]. exists 0%nat. split_and!; [lia|done..|]. intros; lia.
  + intros (j & -> & Hj & Hc & Hfirst). destruct j as [|j].
    * simpl in Hj. injection Hj as <-. by rewrite Nat.add_0_r.
    * specialize (Hfirst 0%nat b0 ltac:(lia) eq_refl). congruence.
- rewrite IH. split.
  + intros (j & -> & Hj & Hc & Hfirst). exists (S j).
    split_and!; [lia|done..|].
    intros [|j'] b' Hlt Hb'; simpl in Hb'; [congruence|].
    apply (Hfirst j'); [lia|done].
  + intros (j & -> & Hj & Hc & Hfirst). destruct j as [|j].
    * simpl in Hj. congruence.
    * exists j. split_and!; [lia|done..|].
      intros j' b' Hlt Hb'. apply (Hfirst (S j')); [lia|done].
Qed.

Lemma exit_criteria_station_balise (s : option string) (b : balise) :
truthy s = true -> exit_criteria (default "" s) b = true ->
station_balise s (default "" (b_name b)) = true.
Proof.
intros Hs. unfold exit_criteria, station_balise. rewrite Hs. cbv zeta.
intros [[_ H1]%andb_true_iff H2]%andb_true_iff. by rewrite H1, H2.
Qed.

(** The state of the widget while a train crosses: the balises, the
  stations and the clock are not written. *)
Lemma crossing_fold (py_float : pyval -> option Q) (now_pass now_auth : nat -> time)
  (k : nat) (old_pos new_pos : Q) (w0 : widget) (l : list (nat * balise))
  (w : widget) (t : train) :
(forall i b, (i, b) ∈ l -> balises w0 !! i = Some b) ->
NoDup l.*1 ->
balises w = balises w0 ->
trains w !! k = Some t ->
exists w' t',
  fold_left (crossing_step py_float now_pass now_auth k false
               (Qmin old_pos new_pos) (Qmax old_pos new_pos)) l (Some w)
  = Some w'
  /\ balises w' = balises w0
  /\ stations w' = stations w
  /\ current_sim_time w' = current_sim_time w
  /\ trains w' !! k = Some t'
  /\ same_journey t t'
  /\ (forall j, j <> k -> trains w' !! j = trains w !! j)
  /\ (forall i, balise_pass_times w' !! i
        = if bool_decide (i ∈ l.*1) && crossed w0 old_pos new_pos i
          then Some (default (now_pass i) (current_sim_time w))
          else balise_pass_times w !! i).
Proof.
revert w t. induction l as [|[i b] l IH]; intros w t Hl Hnd Hbs Ht.
{ exists w, t. simpl. split_and!; try done; apply same_journey_refl. }
rewrite fmap_cons in Hnd. apply NoDup_cons in Hnd as [Hi Hnd]. simpl in Hi.
assert (balises w0 !! i = Some b) as Hb by (apply Hl; left).
assert (forall i' b', (i', b') ∈ l -> balises w0 !! i' = Some b') as Hl'
  by (intros i' b' H; apply Hl; by right).
assert (crossed w0 old_pos new_pos i
        = Qle_bool (Qmin old_pos new_pos) (default 0%Q (b_location b))
          && Qle_bool (default 0%Q (b_location b)) (Qmax old_pos new_pos))
  as Hcr by (unfold crossed; by rewrite Hb).
cbn [fold_left]. unfold crossing_step at 2. cbn [mbind option_bind fst snd].
rewrite <- Hcr.
destruct (crossed w0 old_pos new_pos i) eqn:Ecr.
- set (tm := default (now_pass i) (current_sim_time w)).
  set (w1 := set_pass_time i tm w).
  assert (trains w1 !! k = Some t) as -> by done.
  cbn [mbind option_bind].
  destruct (handle_balise_pass_total py_float w1 (now_auth i) t b b i)
    as [t1 Ht1]; [by rewrite <- Hb, <- Hbs|].
  rewrite Ht1. cbn [mbind option_bind].
  pose proof (handle_balise_pass_same_journey _ _ _ _ _ _ _ Ht1) as Hj1.
  destruct (IH (set_train k t1 w1) t1 Hl' Hnd) as
    (w' & t' & Hfold & Hbs' & Hst' & Hsim' & Ht' & Hj' & Hother & Hpass);
    [done| |].
  { simpl. apply list_lookup_insert_eq. by eapply lookup_lt_Some. }
  exists w', t'. split_and!; try done.
  + by eapply same_journey_trans.
  + intros j Hj. rewrite Hother by done. simpl.
    by rewrite list_lookup_insert_ne.
  + intros i'. rewrite Hpass, fmap_cons. simpl.
    destruct (decide (i' = i)) as [->|Hne].
    * rewrite (bool_decide_eq_false_2 (i ∈ l.*1)) by done.
      rewrite bool_decide_eq_true_2 by left. rewrite Ecr. simpl.
      by rewrite lookup_insert_eq.
    * rewrite lookup_insert_ne by done.
      rewrite (bool_decide_ext (i' ∈ i :: l.*1) (i' ∈ l.*1)); [done|].
      rewrite elem_of_cons. tauto.
- destruct (IH w t Hl' Hnd Hbs Ht) as
    (w' & t' & Hfold & Hbs' & Hst' & Hsim' & Ht' & Hj' & Hother & Hpass).
  exists w', t'. split_and!; try done.
  intros i'. rewrite Hpass, fmap_cons. cbn [fst].
  destruct (decide (i' = i)) as [->|Hne].
  + rewrite Ecr, !andb_false_r. done.
  + rewrite (bool_decide_ext (i' ∈ i :: l.*1) (i' ∈ l.*1)); [done|].
    rewrite elem_of_cons. tauto.
Qed.

Lemma enumerate_lookup (bs : list balise) (i : nat) (b : balise) :
(i, b) ∈ zip (seq 0 (length bs)) bs -> bs !! i = Some b.
Proof.
intros (j & Hj)%list_elem_of_lookup_1.
apply lookup_zip_with_Some in Hj as (x & y & [= -> ->] & Hx & Hy).
apply lookup_seq in Hx as [-> _]. done.
Qed.

Lemma enumerate_fst (bs : list balise) :
(zip (seq 0 (length bs)) bs).*1 = seq 0 (length bs).
Proof. apply fst_zip. by rewrite length_seq. Qed.

Lemma crossing_jump_fold (py_float : pyval -> option Q)
  (now_pass now_auth : nat -> time) (k : nat) (start end_ : Q)
  (l : list (nat * balise)) (w : widget) :
fold_left (crossing_step py_float now_pass now_auth k true start end_) l (Some w)
= Some w.
Proof.
induction l as [|ib l IH]; [done|]. cbn [fold_left].
unfold crossing_step at 2. cbn [mbind option_bind].
by destruct (_ && _).
Qed.

End traffic_extra.

(** X26: [_get_station_exit_balise] returns the first balise of the roster
    that is active, type ["1"], and whose name contains the name of the
    station and ["CZ"], with its position; it returns nothing for a
    station without name. *)
Theorem exit_balise_is_first (w : SimulationWidget.widget)
    (station_name : option string) (i : nat) (b : balise) :
  Traffic.get_station_exit_balise w station_name = Some (i, b)
  <-> SimulationWidget.truthy station_name = true
      /\ SimulationWidget.balises w !! i = Some b
      /\ Traffic.exit_criteria (default "" station_name) b = true
      /\ forall j b', (j < i)%nat -> SimulationWidget.balises w !! j = Some b' ->
           Traffic.exit_criteria (default "" station_name) b' = false.
Proof.
  unfold Traffic.get_station_exit_balise.
  destruct (SimulationWidget.truthy station_name).
  - rewrite find_exit_Some. split.
    + intros (j & -> & H). done.
    + intros (_ & H). exists i. done.
  - split; [done|]. by intros [? _].
Qed.

(** X27: the exit balise found for the start station of a train is
    relevant to the train, with the time of departure as the time to wait
    for and without the order to stop; a manual train authorizes it as
    long as no pass is recorded. *)
Theorem exit_balise_relevant (w : SimulationWidget.widget)
    (t : SimulationWidget.train) (i : nat) (b : balise)
    (dt : SimulationWidget.time) :
  Traffic.get_station_exit_balise w (SimulationWidget.start_station t)
  = Some (i, b) ->
  SimulationWidget.relevance w b t
  = (true,
     if SimulationWidget.schedule_managed t
     then SimulationWidget.or_else (SimulationWidget.dep_start t)
            (SimulationWidget.dep_time t)
     else None,
     false)
  /\ (SimulationWidget.schedule_managed t = false ->
      SimulationWidget.balise_pass_times w !! i = None ->
      SimulationWidget.train_authorizes w i b dt t = true).
Proof.
  unfold Traffic.get_station_exit_balise.
  destruct (SimulationWidget.truthy (SimulationWidget.start_station t)) eqn:Hs;
    [|done].
  intros (j & _ & _ & Hc & _)%find_exit_Some.
  pose proof (exit_criteria_station_balise _ _ Hs Hc) as Hsb.
  assert (SimulationWidget.relevance w b t
          = (true,
             if SimulationWidget.schedule_managed t
             then SimulationWidget.or_else (SimulationWidget.dep_start t)
                    (SimulationWidget.dep_time t)
             else None,
             false)) as Hrel.
  { unfold SimulationWidget.relevance. cbv zeta. by rewrite Hsb. }
  split; [done|]. intros Hman Hpass.
  unfold SimulationWidget.train_authorizes. rewrite Hrel.
  unfold SimulationWidget.time in *. by rewrite Hman, Hpass.
Qed.

Lemma exit_balise_relevant_witness :
  SimulationWidget.relevance Scenario.station_widget Scenario.exit_balise
    Scenario.timed_train
  = (true,
     if SimulationWidget.schedule_managed Scenario.timed_train
     then SimulationWidget.or_else (SimulationWidget.dep_start Scenario.timed_train)
            (SimulationWidget.dep_time Scenario.timed_train)
     else None,
     false)
  /\ (SimulationWidget.schedule_managed Scenario.timed_train = false ->
      SimulationWidget.balise_pass_times Scenario.station_widget !! 1%nat = None ->
      SimulationWidget.train_authorizes Scenario.station_widget 1
        Scenario.exit_balise 0 Scenario.timed_train = true).
Proof.
  apply (exit_balise_relevant Scenario.station_widget Scenario.timed_train 1
           Scenario.exit_balise 0).
  reflexivity.
Defined.

(** X28: a train of the roster that is not in a jump crosses without an
    exception; afterwards the pass time of every balise between the two
    positions, ends included, is the time of the simulation, or the clock
    when there is none, and every other pass time is as before; the
    balises and the other trains are as before, and the train itself has
    its name, schedule and location as before. *)
Theorem crossing_records_passes (py_float : pyval -> option Q)
    (now_pass now_auth : nat -> SimulationWidget.time)
    (w : SimulationWidget.widget) (k : nat) (t : SimulationWidget.train)
    (old_pos new_pos : Q) :
  SimulationWidget.trains w !! k = Some t ->
  exists w' t',
    Traffic.process_balise_crossing py_float now_pass now_auth w k false
      old_pos new_pos = Some w'
    /\ SimulationWidget.balises w' = SimulationWidget.balises w
    /\ (forall i, SimulationWidget.balise_pass_times w' !! i
          = if Traffic.crossed w old_pos new_pos i
            then Some (default (now_pass i) (SimulationWidget.current_sim_time w))
            else SimulationWidget.balise_pass_times w !! i)
    /\ (forall j, j <> k ->
          SimulationWidget.trains w' !! j = SimulationWidget.trains w !! j)
    /\ SimulationWidget.trains w' !! k = Some t'
    /\ same_journey t t'.
Proof.
  intros Ht. unfold Traffic.process_balise_crossing.
  destruct (crossing_fold py_float now_pass now_auth k old_pos new_pos w
              (zip (seq 0 (length (SimulationWidget.balises w)))
                 (SimulationWidget.balises w)) w t)
    as (w' & t' & Hfold & Hbs & _ & _ & Ht' & Hj & Hother & Hpass);
    [apply enumerate_lookup|rewrite enumerate_fst; apply NoDup_seq|done..|].
  exists w', t'. split_and!; try done.
  intros i. rewrite Hpass, enumerate_fst.
  destruct (Traffic.crossed w old_pos new_pos i) eqn:Ecr;
    [|by rewrite andb_false_r].
  rewrite bool_decide_eq_true_2; [done|].
  apply elem_of_seq. unfold Traffic.crossed in Ecr.
  destruct (SimulationWidget.balises w !! i) eqn:Hb; [|done].
  apply lookup_lt_Some in Hb. lia.
Qed.

Lemma crossing_records_passes_witness :
  exists w' t',
    Traffic.process_balise_crossing Fixtures.no_float (fun _ => 0) (fun _ => 0)
      Scenario.run_widget 0 false 4 6 = Some w'
    /\ SimulationWidget.balises w' = SimulationWidget.balises Scenario.run_widget
    /\ (forall i, SimulationWidget.balise_pass_times w' !! i
          = if Traffic.crossed Scenario.run_widget 4 6 i
            then Some (default ((fun _ => 0) i)
                         (SimulationWidget.current_sim_time Scenario.run_widget))
            else SimulationWidget.balise_pass_times Scenario.run_widget !! i)
    /\ (forall j, j <> 0%nat ->
          SimulationWidget.trains w' !! j
          = SimulationWidget.trains Scenario.run_widget !! j)
    /\ SimulationWidget.trains w' !! 0%nat = Some t'
    /\ same_journey Scenario.near_train t'.
Proof.
  apply (crossing_records_passes Fixtures.no_float (fun _ => 0) (fun _ => 0)
           Scenario.run_widget 0 Scenario.near_train 4 6).
  reflexivity.
Defined.

(** X29: a train in a jump crosses no balise: the widget is as before,
    whatever lies between the two positions. *)
Theorem crossing_in_jump (py_float : pyval -> option Q)
    (now_pass now_auth : nat -> SimulationWidget.time)
    (w : SimulationWidget.widget) (k : nat) (old_pos new_pos : Q) :
  Traffic.process_balise_crossing py_float now_pass now_auth w k true
    old_pos new_pos = Some w.
Proof. apply crossing_jump_fold. Qed.


